(** * EscPosDecoder: a shallow embedding of [esc_pos_decoder.py]

    The Python class [EscPosDecoder] is an incremental decoder for ESC/POS
    byte streams.  Its instance fields become the record [EscPosDecoder];
    its methods become computations in a state-and-exception monad in which,
    as in Python, the fields keep whatever was written to them before an
    exception was raised.

    The logging methods ([log_debug], [log_info], [log_warn]) and the
    [decoder_method] decorator only print; they touch no field and are left
    out.  Where the argument of a logging call can itself raise (an attribute
    lookup inside an f-string), that exception is modelled. *)

From Stdlib Require Import ZArith Lia List Bool.
From Stdlib Require Import Strings.Byte Strings.String.
From stdpp Require Import base countable gmap.

Local Open Scope Z_scope.

(** ** Bytes *)

(** A Python [bytes] object is a [list byte].  The decoder only ever handles
    one-byte [bytes] objects as units ([b.to_bytes(1, byteorder)] in
    [feed_bytes], [f.read(1)] in [parse_file]); such an object is represented
    by its single byte. *)
Abbreviation bytes := (list byte).

#[global] Instance byte_eq_dec : EqDecision byte := Byte.byte_eq_dec.

Definition byte_of_N_default (n : N) : byte :=
  match Byte.of_N n with Some b => b | None => x00 end.

Lemma byte_of_to_N_default (b : byte) : byte_of_N_default (Byte.to_N b) = b.
Proof. unfold byte_of_N_default. now rewrite Byte.of_to_N. Qed.

#[global] Instance byte_countable : Countable byte :=
  inj_countable' Byte.to_N byte_of_N_default byte_of_to_N_default.

(** [int(n[0])] for a one-byte object [n]. *)
Definition int_of_byte (b : byte) : Z := Z.of_N (Byte.to_N b).

(** [b * n] for a one-byte object [b] and an integer [n]: Python yields the
    empty object for [n <= 0]. *)
Definition bytes_mul (b : byte) (n : Z) : bytes := List.repeat b (Z.to_nat n).

(** [b''.join(l)] for a list [l] of [bytes] objects. *)
Definition join (l : list bytes) : bytes := List.concat l.

(** ** Constants of the class *)

Definition ESC : byte := x1b.
Definition GS : byte := x1d.
Definition LF : byte := x0a.

Definition PRINTABLES : bytes :=
  list_byte_of_string "0123456789abcdefghijklmnopqrstuvwxyzABCDEFGHIJKLMNOPQRSTUV"
  ++ list_byte_of_string "WXYZ!#$%&'()*+,-./:;<=>?@[\]^_`{|}~ "
  ++ [x22]
  ++ list_byte_of_string "#$%&'()+,-./:;<=>?@[\]^_`"
  ++ list_byte_of_string "{|}~ "
  ++ [x09; x0a; x0d; x0b; x0c].

(** [character in PRINTABLES] *)
Definition in_bytes (c : byte) (l : bytes) : bool :=
  List.existsb (Byte.eqb c) l.

Inductive EscPosDecoderMode :=
| FILL_DATA_BUF
| FILL_CMD_BUF
| FILL_CMD_ARG_BUF.

#[global] Instance EscPosDecoderMode_eq_dec : EqDecision EscPosDecoderMode.
Proof. solve_decision. Defined.

(** ** Printer methods and the decoder tree *)

(** The bound methods stored at the leaves of [decoder_tree]: [pm_f] stands
    for the object [self._f]. *)
Inductive printer_method :=
| pm_select_print_mode
| pm_select_userdef_charset
| pm_set_underline
| pm_set_font
| pm_initialize_printer
| pm_set_emphasis_mode
| pm_feed_forward_units
| pm_cut
| pm_select_justification
| pm_feed_forward_lines
| pm_pulse
| pm_upside_down
| pm_set_character_size
| pm_process_graphics_data
| pm_set_left_margin
| pm_cut_paper
| pm_set_print_area_width
| pm_set_barcode_height.

(** [printer_method.__code__.co_argcount]: the number of positional
    parameters in the method's [def], [self] included. *)
Definition co_argcount (m : printer_method) : Z :=
  match m with
  | pm_initialize_printer => 1          (* (self) *)
  | pm_set_print_area_width => 3        (* (self, nL, nH) *)
  | pm_set_left_margin => 3             (* (self, nL, nH) *)
  | pm_process_graphics_data => 5       (* (self, pl, ph, m, fn) *)
  | pm_pulse => 4                       (* (self, m, t1, t2) *)
  | pm_select_justification | pm_select_print_mode | pm_cut | pm_cut_paper
  | pm_set_barcode_height | pm_select_userdef_charset | pm_set_emphasis_mode
  | pm_upside_down | pm_set_underline | pm_set_character_size | pm_set_font
  | pm_feed_forward_lines | pm_feed_forward_units => 2
  end.

#[local] Set Warnings "-register-all".

(** A value met while walking the tree: a nested [dict] keyed by one-byte
    objects, or a bound method. *)
Inductive node :=
| Method (m : printer_method)
| Dict (d : gmap byte node).

Definition dict_of (l : list (byte * node)) : gmap byte node := list_to_map l.

Definition decoder_tree : gmap byte node :=
  dict_of
    [ (ESC, Dict (dict_of
         [ (x21, Method pm_select_print_mode)         (* ! *)
         ; (x25, Method pm_select_userdef_charset)    (* % *)
         ; (x2d, Method pm_set_underline)             (* - *)
         ; (x4d, Method pm_set_font)                  (* M *)
         ; (x40, Method pm_initialize_printer)        (* @ *)
         ; (x45, Method pm_set_emphasis_mode)         (* E *)
         ; (x4a, Method pm_feed_forward_units)        (* J *)
         ; (x56, Method pm_cut)                       (* V *)
         ; (x61, Method pm_select_justification)      (* a *)
         ; (x64, Method pm_feed_forward_lines)        (* d *)
         ; (x70, Method pm_pulse)                     (* p *)
         ; (x7b, Method pm_upside_down) ]))           (* { *)
    ; (GS, Dict (dict_of
         [ (x21, Method pm_set_character_size)        (* ! *)
         ; (x28, Dict (dict_of                      (* ( *)
              [ (x4c, Method pm_process_graphics_data) ]))  (* L *)
         ; (x4c, Method pm_set_left_margin)           (* L *)
         ; (x56, Method pm_cut_paper)                 (* V *)
         ; (x57, Method pm_set_print_area_width)      (* W *)
         ; (x68, Method pm_set_barcode_height) ])) ]. (* h *)

(** ** The instance *)

(** [out_buf] is a list of fragments, except between the [join] and the
    [_reset] inside [get_text], where the attribute holds one [bytes]
    object. *)
Inductive out_buf_value :=
| OutList (l : list bytes)
| OutBytes (b : bytes).

Record EscPosDecoder := mkEscPosDecoder {
  num_decoding_errors : Z;
  decoder_mode : EscPosDecoderMode;
  printout_width : Z;
  cmd_buf : bytes;
  cmd_arg_buf : bytes;
  data_buf : bytes;
  cmd_expected_nargs : Z;
  num_parsed_bytes : Z;
  out_buf : out_buf_value
}.

Definition set_num_decoding_errors (v : Z) (s : EscPosDecoder) :=
  mkEscPosDecoder v (decoder_mode s) (printout_width s) (cmd_buf s)
    (cmd_arg_buf s) (data_buf s) (cmd_expected_nargs s) (num_parsed_bytes s)
    (out_buf s).
Definition set_decoder_mode (v : EscPosDecoderMode) (s : EscPosDecoder) :=
  mkEscPosDecoder (num_decoding_errors s) v (printout_width s) (cmd_buf s)
    (cmd_arg_buf s) (data_buf s) (cmd_expected_nargs s) (num_parsed_bytes s)
    (out_buf s).
Definition set_cmd_buf (v : bytes) (s : EscPosDecoder) :=
  mkEscPosDecoder (num_decoding_errors s) (decoder_mode s) (printout_width s) v
    (cmd_arg_buf s) (data_buf s) (cmd_expected_nargs s) (num_parsed_bytes s)
    (out_buf s).
Definition set_cmd_arg_buf (v : bytes) (s : EscPosDecoder) :=
  mkEscPosDecoder (num_decoding_errors s) (decoder_mode s) (printout_width s)
    (cmd_buf s) v (data_buf s) (cmd_expected_nargs s) (num_parsed_bytes s)
    (out_buf s).
Definition set_data_buf (v : bytes) (s : EscPosDecoder) :=
  mkEscPosDecoder (num_decoding_errors s) (decoder_mode s) (printout_width s)
    (cmd_buf s) (cmd_arg_buf s) v (cmd_expected_nargs s) (num_parsed_bytes s)
    (out_buf s).
Definition set_cmd_expected_nargs (v : Z) (s : EscPosDecoder) :=
  mkEscPosDecoder (num_decoding_errors s) (decoder_mode s) (printout_width s)
    (cmd_buf s) (cmd_arg_buf s) (data_buf s) v (num_parsed_bytes s)
    (out_buf s).
Definition set_out_buf (v : out_buf_value) (s : EscPosDecoder) :=
  mkEscPosDecoder (num_decoding_errors s) (decoder_mode s) (printout_width s)
    (cmd_buf s) (cmd_arg_buf s) (data_buf s) (cmd_expected_nargs s)
    (num_parsed_bytes s) v.

(** ** Computations on an instance *)

Inductive exn :=
| KeyError
| TypeError
| ValueError
| AttributeError
| UnicodeDecodeError.

Inductive outcome (A : Type) :=
| Return (a : A)
| Raise (e : exn).
Arguments Return {A} a.
Arguments Raise {A} e.

(** A method body: from the instance before the call to what the call
    returned or raised, and the instance after it. *)
Definition M (A : Type) : Type := EscPosDecoder -> outcome A * EscPosDecoder.

Definition ret {A} (a : A) : M A := fun s => (Return a, s).
Definition raise {A} (e : exn) : M A := fun s => (Raise e, s).
Definition bind {A B} (c : M A) (k : A -> M B) : M B :=
  fun s => match c s with
           | (Return a, s') => k a s'
           | (Raise e, s') => (Raise e, s')
           end.
Definition gets {A} (f : EscPosDecoder -> A) : M A := fun s => (Return (f s), s).
Definition modify (f : EscPosDecoder -> EscPosDecoder) : M unit :=
  fun s => (Return tt, f s).

(** [try: c / except: pass] with a bare [except]. *)
Definition try_except_pass (c : M unit) : M unit :=
  fun s => match c s with
           | (Return _, s') => (Return tt, s')
           | (Raise _, s') => (Return tt, s')
           end.

Declare Scope py_scope.
Delimit Scope py_scope with py.
Notation "'do' x <- c1 ; c2" := (bind c1 (fun x => c2))
  (at level 10, x name, c1 at level 100, c2 at level 200) : py_scope.
Local Open Scope py_scope.

(** [for x in l: body(x)] *)
Fixpoint for_each {A} (l : list A) (body : A -> M unit) : M unit :=
  match l with
  | [] => ret tt
  | x :: l' => do _ <- body x; for_each l' body
  end.

(** ** Lifecycle *)

Definition _reset : M unit :=
  modify (fun s =>
    {| num_decoding_errors := num_decoding_errors s;
       decoder_mode := FILL_DATA_BUF;
       printout_width := 48;
       cmd_buf := [];
       cmd_arg_buf := [];
       data_buf := [];
       cmd_expected_nargs := 0;
       num_parsed_bytes := 0;
       out_buf := OutList [] |}).

(** The instance built by [EscPosDecoder()]: [__init__] sets
    [num_decoding_errors = 0], builds [decoder_tree] and calls [_reset]. *)
Definition __init__ : EscPosDecoder :=
  {| num_decoding_errors := 0;
     decoder_mode := FILL_DATA_BUF;
     printout_width := 48;
     cmd_buf := [];
     cmd_arg_buf := [];
     data_buf := [];
     cmd_expected_nargs := 0;
     num_parsed_bytes := 0;
     out_buf := OutList [] |}.

Definition get_num_decoding_errors : M Z := gets num_decoding_errors.

(** [self.out_buf.append(x)]; a [bytes] object has no [append]. *)
Definition out_buf_append (x : bytes) : M unit :=
  fun s => match out_buf s with
           | OutList l => (Return tt, set_out_buf (OutList (l ++ [x])) s)
           | OutBytes _ => (Raise AttributeError, s)
           end.

(** ** The printer methods

    Each takes its argument bytes as one-byte objects.  Most only log. *)

Definition _initialize_printer : M unit := ret tt.

Definition _set_print_area_width (nL nH : byte) : M unit :=
  let pa_width := int_of_byte nL + int_of_byte nH * 256 in
  ret tt.

Definition _set_left_margin (nL nH : byte) : M unit :=
  let margin := int_of_byte nL + int_of_byte nH * 256 in
  ret tt.

Definition _select_justification (n : byte) : M unit :=
  let n := int_of_byte n in
  if (n =? 0) || (n =? 48) then ret tt
  else if (n =? 1) || (n =? 49) then ret tt
  else if (n =? 2) || (n =? 50) then ret tt
  else raise ValueError.

Definition _select_print_mode (print_mode : byte) : M unit := ret tt.
Definition _cut (cut_mode : byte) : M unit := ret tt.
Definition _cut_paper (cut_mode : byte) : M unit := ret tt.
Definition _set_barcode_height (height : byte) : M unit := ret tt.
Definition _select_userdef_charset (n : byte) : M unit := ret tt.
Definition _set_emphasis_mode (onoff : byte) : M unit := ret tt.
Definition _upside_down (onoff : byte) : M unit := ret tt.
Definition _set_underline (u : byte) : M unit := ret tt.
Definition _set_character_size (size : byte) : M unit := ret tt.
Definition _set_font (font : byte) : M unit := ret tt.

Definition _feed_forward_lines (num_lines : byte) : M unit :=
  let num_lines := int_of_byte num_lines in
  out_buf_append (bytes_mul LF num_lines).

Definition _feed_forward_units (num_units : byte) : M unit :=
  let num_units := int_of_byte num_units in
  out_buf_append (bytes_mul LF num_units).

Definition _process_graphics_data (pl ph m fn : byte) : M unit := ret tt.
Definition _pulse (m t1 t2 : byte) : M unit := ret tt.

(** The call of a bound method [func] on the unpacked list [args]: a call
    with the wrong number of positional arguments raises [TypeError] before
    the body runs. *)
Definition call (func : printer_method) (args : bytes) : M unit :=
  match func, args with
  | pm_initialize_printer, [] => _initialize_printer
  | pm_set_print_area_width, [nL; nH] => _set_print_area_width nL nH
  | pm_set_left_margin, [nL; nH] => _set_left_margin nL nH
  | pm_select_justification, [n] => _select_justification n
  | pm_select_print_mode, [a] => _select_print_mode a
  | pm_cut, [a] => _cut a
  | pm_cut_paper, [a] => _cut_paper a
  | pm_set_barcode_height, [a] => _set_barcode_height a
  | pm_select_userdef_charset, [a] => _select_userdef_charset a
  | pm_set_emphasis_mode, [a] => _set_emphasis_mode a
  | pm_upside_down, [a] => _upside_down a
  | pm_set_underline, [a] => _set_underline a
  | pm_set_character_size, [a] => _set_character_size a
  | pm_set_font, [a] => _set_font a
  | pm_feed_forward_lines, [a] => _feed_forward_lines a
  | pm_feed_forward_units, [a] => _feed_forward_units a
  | pm_process_graphics_data, [pl; ph; m; fn] => _process_graphics_data pl ph m fn
  | pm_pulse, [m; t1; t2] => _pulse m t1 t2
  | _, _ => raise TypeError
  end.

(** ** Output of the data buffer *)

(** The loop [for character in data_buf: has_non_printables =
    has_non_printables or (character not in PRINTABLES)]. *)
Definition has_non_printables (data : bytes) : bool :=
  List.fold_left (fun acc character => acc || negb (in_bytes character PRINTABLES))
                 data false.

Definition _data_buf_to_output : M unit :=
  do buf <- gets data_buf;
  match buf with
  | [] => ret tt
  | _ :: _ =>
      let data := join (List.map (fun b => [b]) buf) in
      do _ <- (if negb (has_non_printables data) then out_buf_append data
               else ret tt);
      modify (set_data_buf [])
  end.

Definition _terminate_feed : M unit :=
  do mode <- gets decoder_mode;
  match mode with
  | FILL_DATA_BUF => _data_buf_to_output
  | FILL_CMD_BUF => ret tt
  | FILL_CMD_ARG_BUF => ret tt
  end.

(** ** Walking the tree *)

(** [search[key]]: a missing key of a [dict] raises [KeyError]; a bound
    method cannot be subscripted. *)
Definition subscript (search : node) (key : byte) : outcome node :=
  match search with
  | Dict d => match d !! key with
              | Some child => Return child
              | None => Raise KeyError
              end
  | Method _ => Raise TypeError
  end.

(** The loop [for key in self.cmd_buf: search = search[key]]. *)
Fixpoint walk (search : node) (keys : bytes) : outcome node :=
  match keys with
  | [] => Return search
  | key :: keys' =>
      match subscript search key with
      | Return child => walk child keys'
      | Raise e => Raise e
      end
  end.

(** Returns the object found, or Python's [None] after a [KeyError]. *)
Definition _find_printer_method : M (option node) :=
  do keys <- gets cmd_buf;
  match walk (Dict decoder_tree) keys with
  | Return search => ret (Some search)
  | Raise KeyError =>
      do _ <- modify (fun s => set_num_decoding_errors (num_decoding_errors s + 1) s);
      do _ <- modify (set_cmd_arg_buf []);
      do _ <- modify (set_cmd_buf []);
      do _ <- modify (set_decoder_mode FILL_DATA_BUF);
      ret None
  | Raise e => raise e
  end.

(** [_process_command_buffer], with the table of parameter counts it reads
    through [printer_method.__code__.co_argcount] made explicit. *)
Definition _process_command_buffer_with (argcount : printer_method -> Z) : M unit :=
  do printer_method <- _find_printer_method;
  match printer_method with
  | Some (Method func) =>
      let nargs := argcount func - 1 in
      do _ <- modify (set_cmd_arg_buf []);
      if nargs =? 0 then
        do _ <- call func [];
        do _ <- modify (set_cmd_buf []);
        do _ <- modify (set_cmd_arg_buf []);
        do _ <- modify (set_cmd_expected_nargs 0);
        modify (set_decoder_mode FILL_DATA_BUF)
      else
        do _ <- modify (set_cmd_expected_nargs nargs);
        modify (set_decoder_mode FILL_CMD_ARG_BUF)
  | Some (Dict _) => ret tt
  | None => ret tt
  end.

Definition _process_command_buffer : M unit :=
  _process_command_buffer_with co_argcount.

(** [func.__qualname__] is read (for the log line) before the [try]; a
    [dict] and [None] have no such attribute. *)
Definition printer_method_args_wrapper (func : option node) (args : bytes) : M unit :=
  match func with
  | Some (Method func) =>
      do _ <- try_except_pass (call func args);
      do _ <- modify (set_cmd_buf []);
      do _ <- modify (set_cmd_arg_buf []);
      do _ <- modify (set_cmd_expected_nargs 0);
      modify (set_decoder_mode FILL_DATA_BUF)
  | Some (Dict _) => raise AttributeError
  | None => raise AttributeError
  end.

(** ** Feeding *)

(** [b in list(self.decoder_tree.keys())] *)
Definition is_command_start (b : byte) : bool :=
  bool_decide (b ∈ (map_to_list decoder_tree).*1).

Definition _feed_byte (b : byte) : M unit :=
  do mode <- gets decoder_mode;
  match mode with
  | FILL_DATA_BUF =>
      if is_command_start b then
        do _ <- _data_buf_to_output;
        do _ <- modify (set_cmd_buf [b]);
        do _ <- modify (set_cmd_arg_buf []);
        do _ <- modify (set_cmd_expected_nargs 0);
        modify (set_decoder_mode FILL_CMD_BUF)
      else
        modify (fun s => set_data_buf (data_buf s ++ [b]) s)
  | FILL_CMD_BUF =>
      do _ <- modify (fun s => set_cmd_buf (cmd_buf s ++ [b]) s);
      _process_command_buffer
  | FILL_CMD_ARG_BUF =>
      do _ <- modify (fun s => set_cmd_arg_buf (cmd_arg_buf s ++ [b]) s);
      do args <- gets cmd_arg_buf;
      do nargs <- gets cmd_expected_nargs;
      if Z.of_nat (List.length args) =? nargs then
        do printer_method <- _find_printer_method;
        do args <- gets cmd_arg_buf;
        printer_method_args_wrapper printer_method args
      else ret tt
  end.

Definition feed_bytes (bs : bytes) : M unit :=
  for_each bs _feed_byte.

(** ** Finalization *)

(** A Python [str] is the list of its code points. *)
Abbreviation str := (list Z).

Definition is_continuation (c : Z) : bool := (128 <=? c) && (c <=? 191).

(** [b.decode('UTF-8')] with the default strict error handling: [None] stands
    for [UnicodeDecodeError] (malformed, overlong, surrogate or out-of-range
    sequences). *)
Fixpoint decode_utf8 (b : bytes) : option str :=
  match b with
  | [] => Some []
  | b0 :: r1 =>
      let c0 := int_of_byte b0 in
      if c0 <? 128 then option_map (cons c0) (decode_utf8 r1)
      else
        match r1 with
        | [] => None
        | b1 :: r2 =>
            let c1 := int_of_byte b1 in
            if (192 <=? c0) && (c0 <? 224) then
              let cp := (c0 - 192) * 64 + (c1 - 128) in
              if is_continuation c1 && (128 <=? cp)
              then option_map (cons cp) (decode_utf8 r2) else None
            else
              match r2 with
              | [] => None
              | b2 :: r3 =>
                  let c2 := int_of_byte b2 in
                  if (224 <=? c0) && (c0 <? 240) then
                    let cp := (c0 - 224) * 4096 + (c1 - 128) * 64 + (c2 - 128) in
                    if is_continuation c1 && is_continuation c2 && (2048 <=? cp)
                       && negb ((55296 <=? cp) && (cp <=? 57343))
                    then option_map (cons cp) (decode_utf8 r3) else None
                  else
                    match r3 with
                    | [] => None
                    | b3 :: r4 =>
                        let c3 := int_of_byte b3 in
                        if (240 <=? c0) && (c0 <? 248) then
                          let cp := (c0 - 240) * 262144 + (c1 - 128) * 4096
                                    + (c2 - 128) * 64 + (c3 - 128) in
                          if is_continuation c1 && is_continuation c2
                             && is_continuation c3 && (65536 <=? cp)
                             && (cp <=? 1114111)
                          then option_map (cons cp) (decode_utf8 r4) else None
                        else None
                    end
              end
        end
  end.

Definition get_text : M str :=
  do _ <- _terminate_feed;
  do ob <- gets out_buf;
  match ob with
  | OutBytes _ => raise TypeError
  | OutList l =>
      do _ <- modify (set_out_buf (OutBytes (join l)));
      do ob <- gets out_buf;
      match ob with
      | OutList _ => raise TypeError
      | OutBytes joined =>
          match decode_utf8 joined with
          | None => raise UnicodeDecodeError
          | Some text =>
              do _ <- _reset;
              ret text
          end
      end
  end.

(** The text of a literal, as the [str] of its code points. *)
Definition str_of (s : string) : str := List.map int_of_byte (list_byte_of_string s).

(** ** Sessions *)

(** A sequence of [feed_bytes] calls, one per chunk. *)
Definition feed_chunks (chunks : list bytes) : M unit :=
  for_each chunks feed_bytes.

(** What a caller observes of a session: the error count read once the
    chunks are fed, then the finalized text. *)
Definition session (chunks : list bytes) : M (str * Z) :=
  do _ <- feed_chunks chunks;
  do n <- get_num_decoding_errors;
  do text <- get_text;
  ret (text, n).

(** The instances a caller can hold: a new one, and whatever a call of
    [feed_bytes] or [get_text] leaves behind. *)
Inductive reachable : EscPosDecoder -> Prop :=
| reachable_init : reachable __init__
| reachable_feed_bytes s bs : reachable s -> reachable (snd (feed_bytes bs s))
| reachable_get_text s : reachable s -> reachable (snd (get_text s)).

Definition printable (c : byte) : Prop := In c PRINTABLES.

(** What holds of every reachable instance. *)
Record invariant (s : EscPosDecoder) : Prop := {
  inv_out_buf :
    exists frags, out_buf s = OutList frags /\ Forall (Forall printable) frags;
  inv_mode :
    match decoder_mode s with
    | FILL_DATA_BUF => True
    | FILL_CMD_BUF =>
        exists d, walk (Dict decoder_tree) (cmd_buf s) = Return (Dict d)
    | FILL_CMD_ARG_BUF =>
        exists func,
          walk (Dict decoder_tree) (cmd_buf s) = Return (Method func)
          /\ cmd_expected_nargs s = co_argcount func - 1
          /\ Z.of_nat (List.length (cmd_arg_buf s)) < cmd_expected_nargs s
    end
}.

(** What [_data_buf_to_output] leaves in the output list. *)
Definition flushed (frags : list bytes) (buf : bytes) : list bytes :=
  match buf with
  | [] => frags
  | _ :: _ => if has_non_printables buf then frags else frags ++ [buf]
  end.

(** The output list that [get_text] joins. *)
Definition finalized (s : EscPosDecoder) (frags : list bytes) : list bytes :=
  match decoder_mode s with
  | FILL_DATA_BUF => flushed frags (data_buf s)
  | FILL_CMD_BUF | FILL_CMD_ARG_BUF => frags
  end.

(** The instance with [k] added to its error counter. *)
Definition shifted (k : Z) (s : EscPosDecoder) : EscPosDecoder :=
  set_num_decoding_errors (num_decoding_errors s + k) s.

(** A computation that neither reads the error counter nor writes anything
    but increments to it. *)
Definition counter_blind {A} (c : M A) : Prop :=
  forall k s, c (shifted k s) = (fst (c s), shifted k (snd (c s))).

(** The instance in mode [FILL_CMD_BUF] whose command buffer holds [keys]. *)
Definition collecting (keys : bytes) : EscPosDecoder :=
  set_decoder_mode FILL_CMD_BUF (set_cmd_buf keys __init__).

(** ** What the further properties speak of *)

(** [b] is one of the two keys of the top level of the tree. *)
Definition is_lead (b : byte) : bool := Byte.eqb b ESC || Byte.eqb b GS.

(** The shape of what a walk returns, as a decidable check: a [dict] is
    accepted when [on_dict] holds, a method when [on_method] holds. *)
Definition shape_ok (on_dict on_method : bool) (found : outcome node) : bool :=
  match found with
  | Return (Dict _) => on_dict
  | Return (Method _) => on_method
  | Raise _ => true
  end.

(** What holds of the fields of every reachable instance, mode by mode. *)
Record consistent (s : EscPosDecoder) : Prop := {
  consistent_fixed : printout_width s = 48 /\ num_parsed_bytes s = 0;
  consistent_errors : 0 <= num_decoding_errors s;
  consistent_mode :
    match decoder_mode s with
    | FILL_DATA_BUF =>
        cmd_buf s = [] /\ cmd_arg_buf s = [] /\ cmd_expected_nargs s = 0
    | FILL_CMD_BUF =>
        data_buf s = [] /\ cmd_arg_buf s = [] /\ cmd_expected_nargs s = 0
        /\ (1 <= List.length (cmd_buf s) <= 2)%nat
    | FILL_CMD_ARG_BUF =>
        data_buf s = [] /\ (2 <= List.length (cmd_buf s) <= 3)%nat
        /\ 1 <= cmd_expected_nargs s <= 4
    end
}.

(** The codes of the printable ASCII characters and of the five white-space
    controls from tab to carriage return. *)
Definition text_code (c : Z) : Prop := 32 <= c <= 126 \/ 9 <= c <= 13.

(** What the check of [_data_buf_to_output] lets through of a data run. *)
Definition kept (run : bytes) : bytes :=
  if has_non_printables run then [] else run.

(** A run of data bytes: none of them starts a command. *)
Definition data_run (run : bytes) : Prop :=
  Forall (fun b => is_command_start b = false) run.

(** The fragments a printer method appends to the output: the two
    feed-forward methods append one fragment of line feeds, the others
    nothing. *)
Definition synthesized (func : printer_method) (args : bytes) : list bytes :=
  match func, args with
  | pm_feed_forward_lines, [n] => [List.repeat LF (Byte.to_nat n)]
  | pm_feed_forward_units, [n] => [List.repeat LF (Byte.to_nat n)]
  | _, _ => []
  end.

(** The instance once a command is done: data is collected again, every
    buffer is empty and the output list is [out]. *)
Definition command_done (out : list bytes) (s : EscPosDecoder) : EscPosDecoder :=
  {| num_decoding_errors := num_decoding_errors s;
     decoder_mode := FILL_DATA_BUF;
     printout_width := printout_width s;
     cmd_buf := [];
     cmd_arg_buf := [];
     data_buf := [];
     cmd_expected_nargs := 0;
     num_parsed_bytes := num_parsed_bytes s;
     out_buf := OutList out |}.

(** ** Parsing a file *)

(** A Python value passed for [filename]. *)
Inductive py_value :=
| PyStr (s : string)
| PyBytes (b : bytes)
| PyInt (n : Z)
| PyNone.

(** The loop [b = f.read(1); while b: self._feed_byte(b); b = f.read(1)]
    over what is left to read of the file: at its end [f.read(1)] returns
    the empty object and the loop stops. *)
Fixpoint read_loop (left : bytes) : M unit :=
  match left with
  | [] => ret tt
  | b :: left' => do _ <- _feed_byte b; read_loop left'
  end.

(** [parse_file], with the bytes that the file named [filename] holds.  A
    failure of [open] is not modelled; [f.close()] in the [finally] clause
    touches no field. *)
Definition parse_file (filename : py_value) (contents : bytes) : M unit :=
  match filename with
  | PyStr _ => read_loop contents
  | PyBytes _ | PyInt _ | PyNone => raise TypeError
  end.

(** The justification codes that [_select_justification] knows. *)
Definition justification_codes : list Z := [0; 48; 1; 49; 2; 50].

(** * Properties *)

(** ** Bytes and the printable set *)

Lemma in_bytes_In c l : in_bytes c l = true <-> In c l.
Proof.
  unfold in_bytes. rewrite existsb_exists. split.
  - intros (x & Hx & Heq). apply Byte.byte_dec_bl in Heq. now subst.
  - intros H. exists c. split; [assumption | now apply Byte.byte_dec_lb].
Qed.

Lemma has_non_printables_acc data acc :
  fold_left (fun acc character => acc || negb (in_bytes character PRINTABLES))
            data acc
  = acc || negb (forallb (fun c => in_bytes c PRINTABLES) data).
Proof.
  revert acc. induction data as [|c data IH]; intros acc; cbn [fold_left forallb].
  - now rewrite orb_false_r.
  - rewrite IH. destruct acc, (in_bytes c PRINTABLES); reflexivity.
Qed.

Lemma has_non_printables_false data :
  has_non_printables data = false <-> Forall printable data.
Proof.
  unfold has_non_printables. rewrite has_non_printables_acc. cbn [orb].
  rewrite negb_false_iff, forallb_forall, List.Forall_forall.
  unfold printable. split; intros H c Hc; apply in_bytes_In, H, Hc.
Qed.

Lemma has_non_printables_true data :
  has_non_printables data = true <-> Exists (fun c => ~ printable c) data.
Proof.
  unfold has_non_printables. rewrite has_non_printables_acc. cbn [orb].
  induction data as [|c data IH]; cbn [forallb].
  - split; [discriminate | intros H; inversion H].
  - destruct (in_bytes c PRINTABLES) eqn:E; cbn [andb].
    + rewrite IH. split; intros H; [now apply Exists_cons_tl|].
      inversion H as [? ? Hc|]; subst; [|assumption].
      exfalso. apply Hc, in_bytes_In, E.
    + split; [intros _ | reflexivity].
      apply Exists_cons_hd. intros Hp. apply in_bytes_In in Hp. congruence.
Qed.

Lemma printable_ascii c : printable c -> int_of_byte c < 128.
Proof.
  intros H. apply in_bytes_In in H. revert H.
  destruct c; vm_compute; congruence.
Qed.

Lemma printable_LF : printable LF.
Proof. apply in_bytes_In. reflexivity. Qed.

Lemma join_singletons (buf : bytes) : join (List.map (fun b => [b]) buf) = buf.
Proof.
  unfold join. induction buf as [|b buf IH]; cbn; [reflexivity | now rewrite IH].
Qed.

Lemma decode_utf8_ascii (b : bytes) :
  Forall (fun c => int_of_byte c < 128) b ->
  decode_utf8 b = Some (List.map int_of_byte b).
Proof.
  induction 1 as [|c b Hc _ IH]; [reflexivity|].
  cbn [decode_utf8 List.map].
  apply Z.ltb_lt in Hc. rewrite Hc, IH. reflexivity.
Qed.

Lemma is_command_start_cases b :
  is_command_start b = true -> b = ESC \/ b = GS.
Proof. destruct b; vm_compute; auto; discriminate. Qed.

Lemma decoder_tree_top b :
  is_command_start b = true -> exists d, decoder_tree !! b = Some (Dict d).
Proof.
  intros H. destruct (is_command_start_cases b H); subst b;
    eexists; vm_compute; reflexivity.
Qed.

Lemma co_argcount_pos func : 1 <= co_argcount func.
Proof. destruct func; cbn; lia. Qed.

Lemma co_argcount_one func : co_argcount func = 1 -> func = pm_initialize_printer.
Proof. destruct func; cbn; intros; (reflexivity || lia). Qed.

Lemma walk_app search keys key :
  walk search (keys ++ [key])
  = match walk search keys with
    | Return found => subscript found key
    | Raise e => Raise e
    end.
Proof.
  revert search. induction keys as [|k keys IH]; intros search; cbn [walk app].
  - destruct (subscript search key); reflexivity.
  - destruct (subscript search k); [apply IH | reflexivity].
Qed.

(** ** The methods, one by one *)

#[global] Arguments PRINTABLES : simpl never.
#[global] Arguments decoder_tree : simpl never.
#[global] Arguments has_non_printables : simpl never.
#[global] Arguments is_command_start : simpl never.
#[global] Arguments join : simpl never.
#[global] Arguments call : simpl never.
#[global] Arguments walk : simpl never.
#[global] Arguments decode_utf8 : simpl never.
#[global] Arguments co_argcount : simpl never.

(** Unfold the monadic plumbing and the field updates, nothing else. *)
Ltac run_m :=
  cbv [bind gets modify ret raise try_except_pass];
  cbn [fst snd
       num_decoding_errors decoder_mode printout_width cmd_buf cmd_arg_buf
       data_buf cmd_expected_nargs num_parsed_bytes out_buf
       set_num_decoding_errors set_decoder_mode set_cmd_buf set_cmd_arg_buf
       set_data_buf set_cmd_expected_nargs set_out_buf].

Lemma _data_buf_to_output_eq s frags :
  out_buf s = OutList frags ->
  _data_buf_to_output s
  = (Return tt, set_data_buf [] (set_out_buf (OutList (flushed frags (data_buf s))) s)).
Proof.
  destruct s as [errs mode width cmd arg data nargs parsed out]; cbn.
  intros ->. unfold _data_buf_to_output; run_m.
  destruct data as [|c data]; [reflexivity|].
  rewrite join_singletons. cbn [flushed]. unfold out_buf_append.
  destruct (has_non_printables (c :: data)); reflexivity.
Qed.

Lemma call_effect func args s :
  (exists o, call func args s = (o, s))
  \/ (exists frags n, out_buf s = OutList frags
        /\ call func args s
           = (Return tt, set_out_buf (OutList (frags ++ [List.repeat LF n])) s)).
Proof.
  destruct func; destruct args as [|a0 [|a1 [|a2 [|a3 [|a4 args]]]]];
    unfold call; try (left; eexists; reflexivity).
  - unfold _feed_forward_units, out_buf_append, bytes_mul.
    destruct (out_buf s) eqn:E; [right | left]; eauto.
  - unfold _select_justification.
    repeat match goal with |- context [if ?c then _ else _] => destruct c end;
      left; eexists; reflexivity.
  - unfold _feed_forward_lines, out_buf_append, bytes_mul.
    destruct (out_buf s) eqn:E; [right | left]; eauto.
Qed.

Lemma call_initialize_printer s : call pm_initialize_printer [] s = (Return tt, s).
Proof. reflexivity. Qed.

Lemma _feed_byte_invariant b s :
  invariant s -> exists s', _feed_byte b s = (Return tt, s') /\ invariant s'.
Proof.
  intros [(frags & Hout & Hfrags) Hmode].
  unfold _feed_byte; run_m.
  destruct (decoder_mode s) eqn:Emode.
  - destruct (is_command_start b) eqn:Estart; run_m.
    + rewrite (_data_buf_to_output_eq s frags Hout); run_m.
      eexists; split; [reflexivity|]. split; run_m.
      * eexists; split; [reflexivity|].
        unfold flushed. destruct (data_buf s) as [|c data]; [assumption|].
        destruct (has_non_printables (c :: data)) eqn:Enp; [assumption|].
        apply Forall_app; split; [assumption|].
        constructor; [|constructor]. now apply has_non_printables_false.
      * destruct (decoder_tree_top b Estart) as [d Hd].
        exists d. unfold walk, subscript. now rewrite Hd.
    + eexists; split; [reflexivity|]. split; run_m; [eauto | now rewrite Emode].
  - destruct Hmode as [d Hd].
    unfold _process_command_buffer, _process_command_buffer_with,
      _find_printer_method; run_m.
    rewrite walk_app, Hd. unfold subscript.
    destruct (d !! b) as [[func|d']|] eqn:Elookup; run_m.
    + destruct (co_argcount func - 1 =? 0) eqn:Enargs; run_m.
      * apply Z.eqb_eq in Enargs.
        assert (func = pm_initialize_printer) as -> by (apply co_argcount_one; lia).
        rewrite call_initialize_printer; run_m.
        eexists; split; [reflexivity|]. split; run_m; eauto.
      * apply Z.eqb_neq in Enargs. pose proof (co_argcount_pos func).
        eexists; split; [reflexivity|]. split; run_m; [eauto|].
        exists func. rewrite walk_app, Hd. unfold subscript. rewrite Elookup.
        cbn [List.length]. split; [reflexivity|]. split; [reflexivity|]. lia.
    + eexists; split; [reflexivity|]. split; run_m; [eauto|].
      rewrite Emode. exists d'. rewrite walk_app, Hd. unfold subscript.
      now rewrite Elookup.
    + eexists; split; [reflexivity|]. split; run_m; eauto.
  - destruct Hmode as (func & Hwalk & Hnargs & Hlen).
    rewrite length_app. cbn [List.length].
    destruct (Z.of_nat (List.length (cmd_arg_buf s) + 1) =? cmd_expected_nargs s)
      eqn:Efull; run_m.
    + unfold _find_printer_method; run_m. rewrite Hwalk; run_m.
      unfold printer_method_args_wrapper; run_m.
      destruct (call_effect func (cmd_arg_buf s ++ [b])
                  (set_cmd_arg_buf (cmd_arg_buf s ++ [b]) s))
        as [(o & ->) | (frags' & n & Hout' & ->)]; run_m.
      * destruct o; eexists; (split; [reflexivity|]); split; run_m; eauto.
      * cbn in Hout'. rewrite Hout in Hout'. injection Hout' as <-.
        eexists; split; [reflexivity|]. split; run_m; [|exact I].
        eexists; split; [reflexivity|].
        apply Forall_app; split; [assumption|].
        constructor; [|constructor].
        apply List.Forall_forall. intros c Hc. apply repeat_spec in Hc. subst c.
        exact printable_LF.
    + apply Z.eqb_neq in Efull.
      eexists; split; [reflexivity|]. split; run_m; [eauto|].
      rewrite Emode. exists func. rewrite length_app. cbn [List.length].
      repeat split; [assumption.. | lia].
Qed.

(** ** Loops *)

Lemma for_each_app {A} (l1 l2 : list A) (body : A -> M unit) s :
  for_each (l1 ++ l2) body s
  = (do _ <- for_each l1 body; for_each l2 body) s.
Proof.
  revert s. induction l1 as [|x l1 IH]; intros s; cbn [for_each app].
  - reflexivity.
  - unfold bind. destruct (body x s) as [[[]|e] s1]; [|reflexivity].
    rewrite IH. reflexivity.
Qed.

Lemma for_each_concat (chunks : list bytes) (body : byte -> M unit) s :
  for_each chunks (fun chunk => for_each chunk body) s
  = for_each (List.concat chunks) body s.
Proof.
  revert s. induction chunks as [|chunk chunks IH]; intros s;
    cbn [for_each List.concat]; [reflexivity|].
  rewrite for_each_app. unfold bind.
  destruct (for_each chunk body s) as [[[]|e] s1]; [apply IH | reflexivity].
Qed.

Lemma for_each_preserves {A} (P : EscPosDecoder -> Prop) (body : A -> M unit) :
  (forall x s, P s -> exists s', body x s = (Return tt, s') /\ P s') ->
  forall l s, P s -> exists s', for_each l body s = (Return tt, s') /\ P s'.
Proof.
  intros Hbody. induction l as [|x l IH]; intros s Hs; cbn [for_each].
  - exists s. split; [reflexivity | assumption].
  - destruct (Hbody x s Hs) as (s1 & E1 & H1).
    destruct (IH s1 H1) as (s2 & E2 & H2).
    exists s2. unfold bind. rewrite E1. split; assumption.
Qed.

Lemma feed_bytes_invariant bs s :
  invariant s -> exists s', feed_bytes bs s = (Return tt, s') /\ invariant s'.
Proof. apply for_each_preserves. intros b s0. apply _feed_byte_invariant. Qed.

Lemma feed_chunks_invariant chunks s :
  invariant s -> exists s', feed_chunks chunks s = (Return tt, s') /\ invariant s'.
Proof. apply for_each_preserves. intros bs s0. apply feed_bytes_invariant. Qed.

Lemma flushed_printable frags buf :
  Forall (Forall printable) frags -> Forall (Forall printable) (flushed frags buf).
Proof.
  intros H. unfold flushed. destruct buf as [|c buf]; [assumption|].
  destruct (has_non_printables (c :: buf)) eqn:E; [assumption|].
  apply Forall_app; split; [assumption|].
  constructor; [|constructor]. now apply has_non_printables_false.
Qed.

Lemma finalized_printable s frags :
  Forall (Forall printable) frags -> Forall (Forall printable) (finalized s frags).
Proof.
  intros H. unfold finalized.
  destruct (decoder_mode s); auto using flushed_printable.
Qed.

Lemma join_printable frags :
  Forall (Forall printable) frags -> Forall printable (join frags).
Proof.
  unfold join. induction 1 as [|frag frags Hfrag _ IH]; cbn [List.concat].
  - constructor.
  - apply Forall_app; split; assumption.
Qed.

Lemma decode_utf8_printable (b : bytes) :
  Forall printable b -> decode_utf8 b = Some (List.map int_of_byte b).
Proof.
  intros H. apply decode_utf8_ascii.
  eapply List.Forall_impl; [|exact H]. exact printable_ascii.
Qed.

Lemma get_text_eq s frags text :
  out_buf s = OutList frags ->
  decode_utf8 (join (finalized s frags)) = Some text ->
  get_text s = (Return text, set_num_decoding_errors (num_decoding_errors s) __init__).
Proof.
  intros Hout Hdec. unfold get_text, _terminate_feed, finalized in *; run_m.
  destruct (decoder_mode s).
  - rewrite (_data_buf_to_output_eq s frags Hout); run_m.
    rewrite Hdec. reflexivity.
  - rewrite Hout; run_m. rewrite Hdec. reflexivity.
  - rewrite Hout; run_m. rewrite Hdec. reflexivity.
Qed.

Lemma invariant_init k : invariant (set_num_decoding_errors k __init__).
Proof. split; cbn; [|exact I]. exists []. split; [reflexivity | constructor]. Qed.

Lemma get_text_invariant s :
  invariant s ->
  exists frags,
    out_buf s = OutList frags
    /\ get_text s
       = (Return (List.map int_of_byte (join (finalized s frags))),
          set_num_decoding_errors (num_decoding_errors s) __init__).
Proof.
  intros [(frags & Hout & Hfrags) _]. exists frags. split; [assumption|].
  apply get_text_eq with (frags := frags); [assumption|].
  apply decode_utf8_printable, join_printable, finalized_printable, Hfrags.
Qed.

Lemma reachable_invariant s : reachable s -> invariant s.
Proof.
  induction 1 as [|s bs _ IH|s _ IH].
  - exact (invariant_init 0).
  - destruct (feed_bytes_invariant bs s IH) as (s' & E & H'). now rewrite E.
  - destruct (get_text_invariant s IH) as (frags & _ & E). rewrite E.
    apply invariant_init.
Qed.

(** ** Independence of the error counter *)

Lemma counter_blind_ret {A} (a : A) : counter_blind (ret a).
Proof. intros k s. reflexivity. Qed.

Lemma counter_blind_raise {A} e : counter_blind (@raise A e).
Proof. intros k s. reflexivity. Qed.

Lemma counter_blind_bind {A B} (c : M A) (f : A -> M B) :
  counter_blind c -> (forall a, counter_blind (f a)) -> counter_blind (bind c f).
Proof.
  intros Hc Hf k s. unfold bind. rewrite Hc.
  destruct (c s) as [[a|e] s1]; cbn [fst snd]; [apply Hf | reflexivity].
Qed.

Lemma counter_blind_gets {A} (f : EscPosDecoder -> A) :
  (forall k s, f (shifted k s) = f s) -> counter_blind (gets f).
Proof. intros Hf k s. unfold gets. now rewrite Hf. Qed.

Lemma counter_blind_modify (f : EscPosDecoder -> EscPosDecoder) :
  (forall k s, f (shifted k s) = shifted k (f s)) -> counter_blind (modify f).
Proof. intros Hf k s. unfold modify. now rewrite Hf. Qed.

Lemma counter_blind_try (c : M unit) :
  counter_blind c -> counter_blind (try_except_pass c).
Proof.
  intros Hc k s. unfold try_except_pass. rewrite Hc.
  destruct (c s) as [[a|e] s1]; reflexivity.
Qed.

Lemma counter_blind_for_each {A} (l : list A) (body : A -> M unit) :
  (forall x, counter_blind (body x)) -> counter_blind (for_each l body).
Proof.
  intros Hbody. induction l as [|x l IH]; cbn [for_each].
  - apply counter_blind_ret.
  - apply counter_blind_bind; [apply Hbody | intros _; apply IH].
Qed.

Lemma counter_blind_out_buf_append x : counter_blind (out_buf_append x).
Proof.
  intros k s. unfold out_buf_append. cbn [out_buf shifted set_num_decoding_errors].
  destruct (out_buf s); reflexivity.
Qed.

Lemma counter_blind_increment :
  counter_blind
    (modify (fun s => set_num_decoding_errors (num_decoding_errors s + 1) s)).
Proof.
  intros k s. unfold modify, shifted, set_num_decoding_errors; cbn.
  do 2 f_equal. lia.
Qed.

Create HintDb counter_blind.

#[local] Hint Resolve counter_blind_ret counter_blind_raise counter_blind_try
  counter_blind_out_buf_append counter_blind_increment : counter_blind.

Ltac counter_blind :=
  repeat first
    [ progress intros
    | apply counter_blind_bind
    | apply counter_blind_gets; reflexivity
    | apply counter_blind_modify; reflexivity
    | solve [auto with counter_blind]
    | match goal with
      | |- counter_blind (match ?x with _ => _ end) => destruct x
      end ].

Lemma counter_blind_call func args : counter_blind (call func args).
Proof.
  destruct func; destruct args as [|a0 [|a1 [|a2 [|a3 [|a4 args]]]]];
    unfold call; try apply counter_blind_ret; try apply counter_blind_raise;
    try apply counter_blind_out_buf_append.
  unfold _select_justification. counter_blind.
Qed.

Lemma counter_blind__data_buf_to_output : counter_blind _data_buf_to_output.
Proof. unfold _data_buf_to_output. counter_blind. Qed.

Lemma counter_blind__find_printer_method : counter_blind _find_printer_method.
Proof. unfold _find_printer_method. counter_blind. Qed.

#[local] Hint Resolve counter_blind_call counter_blind__data_buf_to_output
  counter_blind__find_printer_method : counter_blind.

Lemma counter_blind__process_command_buffer argcount :
  counter_blind (_process_command_buffer_with argcount).
Proof. unfold _process_command_buffer_with. counter_blind. Qed.

Lemma counter_blind_wrapper func args :
  counter_blind (printer_method_args_wrapper func args).
Proof. unfold printer_method_args_wrapper. counter_blind. Qed.

#[local] Hint Resolve counter_blind__process_command_buffer
  counter_blind_wrapper : counter_blind.

Lemma counter_blind__feed_byte b : counter_blind (_feed_byte b).
Proof. unfold _feed_byte, _process_command_buffer. counter_blind. Qed.

Lemma counter_blind_feed_chunks chunks : counter_blind (feed_chunks chunks).
Proof.
  apply counter_blind_for_each. intros bs.
  apply counter_blind_for_each. exact counter_blind__feed_byte.
Qed.

Lemma counter_blind_get_text : counter_blind get_text.
Proof. unfold get_text, _terminate_feed, _reset. counter_blind. Qed.

(** ** One byte at a time *)

Lemma for_each_cons_ok {A} (body : A -> M unit) x l s s1 :
  body x s = (Return tt, s1) -> for_each (x :: l) body s = for_each l body s1.
Proof. intros E. cbn [for_each]. unfold bind. now rewrite E. Qed.

Lemma _feed_byte_start b s frags :
  decoder_mode s = FILL_DATA_BUF ->
  is_command_start b = true ->
  out_buf s = OutList frags ->
  _feed_byte b s
  = (Return tt,
     set_decoder_mode FILL_CMD_BUF
       (set_cmd_expected_nargs 0
          (set_cmd_arg_buf []
             (set_cmd_buf [b]
                (set_data_buf []
                   (set_out_buf (OutList (flushed frags (data_buf s))) s)))))).
Proof.
  intros Hmode Hb Hout. unfold _feed_byte; run_m. rewrite Hmode, Hb; run_m.
  now rewrite (_data_buf_to_output_eq s frags Hout).
Qed.

Lemma _feed_byte_data b s :
  decoder_mode s = FILL_DATA_BUF ->
  is_command_start b = false ->
  _feed_byte b s = (Return tt, set_data_buf (data_buf s ++ [b]) s).
Proof. intros Hmode Hb. unfold _feed_byte; run_m. now rewrite Hmode, Hb. Qed.

Lemma _feed_byte_cmd b s :
  decoder_mode s = FILL_CMD_BUF ->
  _feed_byte b s = _process_command_buffer (set_cmd_buf (cmd_buf s ++ [b]) s).
Proof. intros Hmode. unfold _feed_byte; run_m. now rewrite Hmode. Qed.

Lemma _feed_byte_last_arg b s func :
  decoder_mode s = FILL_CMD_ARG_BUF ->
  Z.of_nat (List.length (cmd_arg_buf s ++ [b])) = cmd_expected_nargs s ->
  walk (Dict decoder_tree) (cmd_buf s) = Return (Method func) ->
  _feed_byte b s
  = (do _ <- try_except_pass (call func (cmd_arg_buf s ++ [b]));
     do _ <- modify (set_cmd_buf []);
     do _ <- modify (set_cmd_arg_buf []);
     do _ <- modify (set_cmd_expected_nargs 0);
     modify (set_decoder_mode FILL_DATA_BUF))
      (set_cmd_arg_buf (cmd_arg_buf s ++ [b]) s).
Proof.
  intros Hmode Hlen Hwalk. unfold _feed_byte; run_m. rewrite Hmode; run_m.
  apply Z.eqb_eq in Hlen. rewrite Hlen.
  unfold _find_printer_method; run_m. rewrite Hwalk. reflexivity.
Qed.

Lemma _process_command_buffer_args argcount s func :
  walk (Dict decoder_tree) (cmd_buf s) = Return (Method func) ->
  argcount func - 1 <> 0 ->
  _process_command_buffer_with argcount s
  = (Return tt,
     set_decoder_mode FILL_CMD_ARG_BUF
       (set_cmd_expected_nargs (argcount func - 1) (set_cmd_arg_buf [] s))).
Proof.
  intros Hwalk Hn.
  unfold _process_command_buffer_with, _find_printer_method; run_m.
  rewrite Hwalk; run_m. apply Z.eqb_neq in Hn. now rewrite Hn.
Qed.

Lemma int_of_byte_to_nat (n : byte) : Z.to_nat (int_of_byte n) = Byte.to_nat n.
Proof. destruct n; reflexivity. Qed.


(** ** Sessions on reachable instances *)

Lemma session_invariant chunks s :
  invariant s ->
  exists s1 frags,
    feed_chunks chunks s = (Return tt, s1)
    /\ out_buf s1 = OutList frags
    /\ session chunks s
       = (Return (List.map int_of_byte (join (finalized s1 frags)),
                  num_decoding_errors s1),
          set_num_decoding_errors (num_decoding_errors s1) __init__).
Proof.
  intros Hs. destruct (feed_chunks_invariant chunks s Hs) as (s1 & Efeed & H1).
  destruct (get_text_invariant s1 H1) as (frags & Hout & Etext).
  exists s1, frags. repeat split; [assumption..|].
  unfold session, get_num_decoding_errors; run_m. rewrite Efeed, Etext.
  reflexivity.
Qed.

Lemma session_shifted chunks k s text n s' :
  session chunks s = (Return (text, n), s') ->
  session chunks (shifted k s) = (Return (text, n + k), shifted k s').
Proof.
  unfold session, get_num_decoding_errors; run_m.
  rewrite counter_blind_feed_chunks.
  destruct (feed_chunks chunks s) as [[[]|e] s1]; cbn [fst snd]; [|discriminate].
  rewrite counter_blind_get_text.
  destruct (get_text s1) as [[t|e] s2]; cbn [fst snd]; [|discriminate].
  intros [= -> <- <-]. reflexivity.
Qed.

Lemma feed_chunks_concat chunks s :
  feed_chunks chunks s = feed_bytes (List.concat chunks) s.
Proof. apply for_each_concat. Qed.

Lemma feed_chunks_single bs s : feed_chunks [bs] s = feed_bytes bs s.
Proof.
  unfold feed_chunks; cbn [for_each]; unfold bind, ret.
  destruct (feed_bytes bs s) as [[[]|e] s1]; reflexivity.
Qed.

Lemma session_feed chunks chunks' :
  (forall s, feed_chunks chunks s = feed_chunks chunks' s) ->
  forall s, session chunks s = session chunks' s.
Proof. intros H s. unfold session, bind. now rewrite H. Qed.

(** ** The runs of [test_local.py] *)

(** [feed_bytes(b"")] *)
Example empty_byte_array :
  session [[]] __init__ = (Return ([], 0), __init__).
Proof. vm_compute. reflexivity. Qed.

(** The byte array with invalid sequences: two unresolved paths, and a last
    data run that holds non-printable bytes and is dropped. *)
Example invalid_sequences :
  session [ list_byte_of_string "Banana" ++ [x1b; x42]
            ++ list_byte_of_string "Hello" ++ [x1b; x23]
            ++ list_byte_of_string " Wurl" ++ [x01; x02]
            ++ list_byte_of_string "d" ] __init__
  = (Return (str_of "BananaHello", 2), set_num_decoding_errors 2 __init__).
Proof. vm_compute. reflexivity. Qed.

(** ** The claims *)

(** C1 as stated fails: after a session that met one unresolved command
    path, [get_text] has run and [get_num_decoding_errors] still returns 1. *)
Lemma C1_error_counter_survives_get_text :
  ~ (forall chunks s1 text s2,
        feed_chunks chunks __init__ = (Return tt, s1) ->
        get_text s1 = (Return text, s2) ->
        fst (get_num_decoding_errors s2) = Return 0).
Proof.
  intros H.
  specialize (H [[x1b; x42]] _ _ _ eq_refl eq_refl).
  vm_compute in H. discriminate.
Qed.

(** C1, amended: [get_text] resets the mode, every buffer and the expected
    arity, but leaves the error counter as it is.  After a session with [n1]
    errors the instance is a new one except for its counter, which reads
    [n1]; a second session on it returns the text that the same chunks give
    on a new instance, and its error count is [n1] plus the count they give
    there. *)
Theorem C1_reuse_after_finalize (chunks1 chunks2 : list bytes) :
  exists text1 n1 text2 n2,
    session chunks1 __init__
    = (Return (text1, n1), set_num_decoding_errors n1 __init__)
    /\ get_num_decoding_errors (set_num_decoding_errors n1 __init__)
       = (Return n1, set_num_decoding_errors n1 __init__)
    /\ session chunks2 __init__
       = (Return (text2, n2), set_num_decoding_errors n2 __init__)
    /\ session chunks2 (set_num_decoding_errors n1 __init__)
       = (Return (text2, n2 + n1), set_num_decoding_errors (n2 + n1) __init__).
Proof.
  destruct (session_invariant chunks1 __init__ (invariant_init 0))
    as (s1 & frags1 & _ & _ & E1).
  destruct (session_invariant chunks2 __init__ (invariant_init 0))
    as (s2 & frags2 & _ & _ & E2).
  eexists _, (num_decoding_errors s1), _, (num_decoding_errors s2).
  split; [exact E1|]. split; [reflexivity|]. split; [exact E2|].
  exact (session_shifted chunks2 (num_decoding_errors s1) __init__ _ _ _ E2).
Qed.

(** C2: however a byte sequence is cut into chunks, one byte per chunk
    included, a session returns the text, the error count and the instance of
    the session that feeds the sequence in one call; on a new instance it
    returns normally. *)
Theorem C2_chunking_invariance (chunks : list bytes) :
  (forall s, session chunks s = session [List.concat chunks] s)
  /\ (forall s, session (List.map (fun b => [b]) (List.concat chunks)) s
                = session [List.concat chunks] s)
  /\ exists text n s', session chunks __init__ = (Return (text, n), s').
Proof.
  split; [|split].
  - apply session_feed. intros s.
    now rewrite feed_chunks_concat, feed_chunks_single.
  - apply session_feed. intros s.
    rewrite feed_chunks_concat, feed_chunks_single.
    fold (join (List.map (fun b => [b]) (List.concat chunks))).
    now rewrite join_singletons.
  - destruct (session_invariant chunks __init__ (invariant_init 0))
      as (s1 & frags & _ & _ & E).
    eauto.
Qed.

(** C3: in mode [FILL_CMD_BUF], a byte with which the command buffer matches
    no entry of the tree (the walk ends in [KeyError]) is processed without
    an exception: the error counter grows by exactly one, the command and
    argument buffers are emptied, nothing else changes, and the mode is
    [FILL_DATA_BUF], where every further byte that starts no command is
    appended to the data buffer. *)
Theorem C3_unresolved_path_recovery (s : EscPosDecoder) (b : byte) :
  decoder_mode s = FILL_CMD_BUF ->
  walk (Dict decoder_tree) (cmd_buf s ++ [b]) = Raise KeyError ->
  exists s',
    _feed_byte b s = (Return tt, s')
    /\ num_decoding_errors s' = num_decoding_errors s + 1
    /\ cmd_buf s' = []
    /\ cmd_arg_buf s' = []
    /\ decoder_mode s' = FILL_DATA_BUF
    /\ data_buf s' = data_buf s
    /\ out_buf s' = out_buf s
    /\ forall c, is_command_start c = false ->
         _feed_byte c s' = (Return tt, set_data_buf (data_buf s' ++ [c]) s').
Proof.
  intros Hmode Hwalk. eexists. split.
  - unfold _feed_byte; run_m. rewrite Hmode.
    unfold _process_command_buffer, _process_command_buffer_with,
      _find_printer_method; run_m.
    rewrite Hwalk. reflexivity.
  - run_m. repeat split. intros c Hc.
    unfold _feed_byte; run_m. now rewrite Hc.
Qed.

Lemma C3_unresolved_path_recovery_witness :
  exists s',
    _feed_byte x42 (snd (feed_bytes [ESC] __init__)) = (Return tt, s')
    /\ num_decoding_errors s' = 1.
Proof.
  destruct (C3_unresolved_path_recovery (snd (feed_bytes [ESC] __init__)) x42)
    as (s' & E & Herr & _); [reflexivity | reflexivity |].
  exists s'. split; [exact E | exact Herr].
Defined.

(** C4: flushing the data buffer never raises while [out_buf] is a list and
    never touches the error counter; it empties the data buffer.  When every
    byte of the buffer is printable the output grows by exactly the buffered
    bytes (as one new fragment, unless the buffer is empty); when some byte
    is not, the output is left as it was. *)
Theorem C4_printable_filter (s : EscPosDecoder) (frags : list bytes) :
  out_buf s = OutList frags ->
  exists s',
    _data_buf_to_output s = (Return tt, s')
    /\ num_decoding_errors s' = num_decoding_errors s
    /\ data_buf s' = []
    /\ (Forall printable (data_buf s) ->
        exists frags',
          out_buf s' = OutList frags'
          /\ join frags' = join frags ++ data_buf s
          /\ (data_buf s <> [] -> frags' = frags ++ [data_buf s]))
    /\ (Exists (fun c => ~ printable c) (data_buf s) ->
        out_buf s' = OutList frags).
Proof.
  intros Hout. eexists. split; [apply (_data_buf_to_output_eq s frags Hout)|].
  run_m. split; [reflexivity|]. split; [reflexivity|]. split.
  - intros Hp. eexists. split; [reflexivity|]. unfold flushed.
    destruct (data_buf s) as [|c data] eqn:Edata.
    + split; [now rewrite app_nil_r | congruence].
    + apply has_non_printables_false in Hp. rewrite Hp. split; [|reflexivity].
      unfold join. rewrite concat_app. cbn [List.concat]. now rewrite app_nil_r.
  - intros Hnp. unfold flushed.
    destruct (data_buf s) as [|c data]; [reflexivity|].
    apply has_non_printables_true in Hnp. now rewrite Hnp.
Qed.

Lemma C4_printable_filter_witness :
  exists s',
    _data_buf_to_output (snd (feed_bytes [x48; x69] __init__)) = (Return tt, s')
    /\ num_decoding_errors s' = 0
    /\ data_buf s' = [].
Proof.
  destruct (C4_printable_filter (snd (feed_bytes [x48; x69] __init__)) [])
    as (s' & E & Herr & Hdata & _); [reflexivity|].
  exists s'. repeat split; assumption.
Defined.

(** C5: in mode [FILL_CMD_ARG_BUF], when the byte completes the arguments of
    the resolved method and the call raises, [_feed_byte] returns normally;
    the error counter and the output are as before, the command and argument
    buffers are empty, the expected arity is zero and the mode is
    [FILL_DATA_BUF]. *)
Theorem C5_handler_failure_is_caught
  (s : EscPosDecoder) (b : byte) (func : printer_method) (e : exn) :
  decoder_mode s = FILL_CMD_ARG_BUF ->
  Z.of_nat (List.length (cmd_arg_buf s ++ [b])) = cmd_expected_nargs s ->
  walk (Dict decoder_tree) (cmd_buf s) = Return (Method func) ->
  fst (call func (cmd_arg_buf s ++ [b])
         (set_cmd_arg_buf (cmd_arg_buf s ++ [b]) s)) = Raise e ->
  exists s',
    _feed_byte b s = (Return tt, s')
    /\ num_decoding_errors s' = num_decoding_errors s
    /\ cmd_buf s' = []
    /\ cmd_arg_buf s' = []
    /\ cmd_expected_nargs s' = 0
    /\ decoder_mode s' = FILL_DATA_BUF
    /\ out_buf s' = out_buf s.
Proof.
  intros Hmode Hlen Hwalk Hraise.
  unfold _feed_byte; run_m. rewrite Hmode; run_m.
  apply Z.eqb_eq in Hlen. rewrite Hlen.
  unfold _find_printer_method; run_m. rewrite Hwalk; run_m.
  unfold printer_method_args_wrapper; run_m.
  destruct (call_effect func (cmd_arg_buf s ++ [b])
              (set_cmd_arg_buf (cmd_arg_buf s ++ [b]) s))
    as [(o & E) | (frags & n & _ & E)]; rewrite E in Hraise |- *;
    cbn [fst] in Hraise; [subst o | discriminate].
  eexists. split; [reflexivity|]. run_m. repeat split.
Qed.

Lemma C5_handler_failure_is_caught_witness :
  exists s',
    _feed_byte x09 (snd (feed_bytes [ESC; x61] __init__)) = (Return tt, s')
    /\ num_decoding_errors s' = 0
    /\ decoder_mode s' = FILL_DATA_BUF.
Proof.
  destruct (C5_handler_failure_is_caught
              (snd (feed_bytes [ESC; x61] __init__)) x09
              pm_select_justification ValueError)
    as (s' & E & Herr & _ & _ & _ & Hmode & _);
    [reflexivity | reflexivity | reflexivity | reflexivity |].
  exists s'. repeat split; assumption.
Defined.

(** C6 as stated fails: were the arity fixed by the tree, it would not move
    with the parameter counts of the methods.  On the path ESC [!] the tree
    is the same and the arity recorded is 1 with the parameter counts of the
    source and 2 with a method of three parameters. *)
Lemma C6_arity_follows_parameter_count :
  ~ (forall (argcount argcount' : printer_method -> Z) (s : EscPosDecoder),
        cmd_expected_nargs (snd (_process_command_buffer_with argcount s))
        = cmd_expected_nargs (snd (_process_command_buffer_with argcount' s))).
Proof.
  intros H.
  specialize (H co_argcount (fun _ => 3) (collecting [ESC; x21])).
  vm_compute in H. discriminate.
Qed.

(** C6, amended: a leaf of the tree is the bare method, and the arity used
    to collect argument bytes is read from the method when its path
    resolves: it is the method's parameter count less one (for [self]).
    With a count of one the method is called at once; otherwise the count
    less one becomes the expected arity and the mode [FILL_CMD_ARG_BUF]. *)
Theorem C6_arity_is_parameter_count
  (argcount : printer_method -> Z) (s : EscPosDecoder) (func : printer_method) :
  walk (Dict decoder_tree) (cmd_buf s) = Return (Method func) ->
  (argcount func - 1 <> 0 ->
   _process_command_buffer_with argcount s
   = (Return tt,
      set_decoder_mode FILL_CMD_ARG_BUF
        (set_cmd_expected_nargs (argcount func - 1) (set_cmd_arg_buf [] s))))
  /\ (argcount func - 1 = 0 ->
      _process_command_buffer_with argcount s
      = (do _ <- modify (set_cmd_arg_buf []);
         do _ <- call func [];
         do _ <- modify (set_cmd_buf []);
         do _ <- modify (set_cmd_arg_buf []);
         do _ <- modify (set_cmd_expected_nargs 0);
         modify (set_decoder_mode FILL_DATA_BUF)) s).
Proof.
  intros Hwalk.
  unfold _process_command_buffer_with, _find_printer_method; run_m.
  rewrite Hwalk; run_m. split; intros Hn.
  - apply Z.eqb_neq in Hn. rewrite Hn. reflexivity.
  - apply Z.eqb_eq in Hn. rewrite Hn. reflexivity.
Qed.

Lemma C6_arity_is_parameter_count_witness :
  _process_command_buffer (collecting [ESC; x70])
  = (Return tt,
     set_decoder_mode FILL_CMD_ARG_BUF
       (set_cmd_expected_nargs 3 (collecting [ESC; x70]))).
Proof.
  destruct (C6_arity_is_parameter_count co_argcount (collecting [ESC; x70]) pm_pulse)
    as [H _]; [reflexivity|].
  apply H. vm_compute. discriminate.
Defined.

(** C7: on a reachable instance in mode [FILL_CMD_BUF] or
    [FILL_CMD_ARG_BUF], [get_text] returns the text of the output list alone:
    the bytes of the command and argument buffers add nothing to it and are
    dropped by the reset, and the error counter is left as it was. *)
Theorem C7_truncated_command_at_finalization (s : EscPosDecoder) :
  reachable s ->
  decoder_mode s <> FILL_DATA_BUF ->
  exists frags s',
    out_buf s = OutList frags
    /\ get_text s = (Return (List.map int_of_byte (join frags)), s')
    /\ num_decoding_errors s' = num_decoding_errors s
    /\ cmd_buf s' = []
    /\ cmd_arg_buf s' = []
    /\ s' = set_num_decoding_errors (num_decoding_errors s) __init__.
Proof.
  intros Hreach Hmode.
  destruct (get_text_invariant s (reachable_invariant s Hreach))
    as (frags & Hout & E).
  exists frags, (set_num_decoding_errors (num_decoding_errors s) __init__).
  split; [assumption|]. split; [|repeat split].
  rewrite E. unfold finalized.
  destruct (decoder_mode s); [contradiction | reflexivity | reflexivity].
Qed.

Lemma C7_truncated_command_at_finalization_witness :
  exists s',
    get_text (snd (feed_bytes [x41; ESC; x70; x01] __init__))
    = (Return (str_of "A"), s')
    /\ num_decoding_errors s' = 0.
Proof.
  destruct (C7_truncated_command_at_finalization
              (snd (feed_bytes [x41; ESC; x70; x01] __init__)))
    as (frags & s' & Hout & E & Herr & _).
  - apply reachable_feed_bytes, reachable_init.
  - vm_compute. discriminate.
  - exists s'. split; [|exact Herr].
    vm_compute in Hout. injection Hout as <-. exact E.
Defined.

(** C8: the bytes [A], ESC [@], [B] fed to a new instance give the text
    [AB] and no error; the instance left behind is a new one. *)
Theorem C8_command_consumption :
  session [[x41; ESC; x40; x42]] __init__ = (Return (str_of "AB", 0), __init__)
  /\ session [[x41]; [ESC]; [x40]; [x42]] __init__
     = (Return (str_of "AB", 0), __init__).
Proof. split; vm_compute; reflexivity. Qed.

(** C9: in mode [FILL_DATA_BUF] with a list for [out_buf], the bytes ESC [d]
    [n] flush the data buffer and then append one fragment of exactly [n]
    line feeds to the output list, with no error counted; with [n = 3] on a
    new instance the text is three line feeds. *)
Theorem C9_feed_forward_lines (n : byte) (s : EscPosDecoder) (frags : list bytes) :
  decoder_mode s = FILL_DATA_BUF ->
  out_buf s = OutList frags ->
  (exists s',
     feed_bytes [ESC; x64; n] s = (Return tt, s')
     /\ out_buf s'
        = OutList (flushed frags (data_buf s) ++ [List.repeat LF (Byte.to_nat n)])
     /\ num_decoding_errors s' = num_decoding_errors s
     /\ decoder_mode s' = FILL_DATA_BUF)
  /\ session [[ESC; x64; x03]] __init__ = (Return ([10; 10; 10], 0), __init__).
Proof.
  intros Hmode Hout. split; [|vm_compute; reflexivity].
  unfold feed_bytes.
  erewrite for_each_cons_ok
    by (apply _feed_byte_start with (frags := frags); auto).
  erewrite for_each_cons_ok.
  2:{ rewrite _feed_byte_cmd by reflexivity.
      apply _process_command_buffer_args with (func := pm_feed_forward_lines);
        [reflexivity | vm_compute; discriminate]. }
  erewrite for_each_cons_ok.
  2:{ rewrite _feed_byte_last_arg with (func := pm_feed_forward_lines)
        by reflexivity.
      unfold call, _feed_forward_lines, out_buf_append, bytes_mul.
      run_m; cbn [app]; run_m. rewrite int_of_byte_to_nat. reflexivity. }
  eexists. split; [reflexivity|]. run_m. repeat split.
Qed.

Lemma C9_feed_forward_lines_witness :
  exists s',
    feed_bytes [ESC; x64; x03] __init__ = (Return tt, s')
    /\ out_buf s' = OutList [[LF; LF; LF]].
Proof.
  destruct (C9_feed_forward_lines x03 __init__ [])
    as [(s' & E & Hout & _) _]; [reflexivity | reflexivity |].
  exists s'. split; [exact E | exact Hout].
Defined.

(** C10: on every reachable instance [out_buf] is a list of fragments of
    printable bytes, the line feed being one of them; their concatenation
    decodes as UTF-8, and [get_text] returns a text and does not raise. *)
Theorem C10_output_is_printable (s : EscPosDecoder) :
  reachable s ->
  printable LF
  /\ exists frags,
       out_buf s = OutList frags
       /\ Forall (Forall printable) frags
       /\ decode_utf8 (join frags) = Some (List.map int_of_byte (join frags))
       /\ exists text s', get_text s = (Return text, s').
Proof.
  intros Hreach. split; [exact printable_LF|].
  pose proof (reachable_invariant s Hreach) as Hinv.
  destruct (get_text_invariant s Hinv) as (frags & Hout & E).
  destruct Hinv as [(frags' & Hout' & Hfrags) _].
  rewrite Hout in Hout'. injection Hout' as <-.
  exists frags. split; [assumption|]. split; [assumption|]. split.
  - apply decode_utf8_printable, join_printable, Hfrags.
  - eauto.
Qed.

Lemma C10_output_is_printable_witness :
  exists text s',
    get_text (snd (feed_bytes [x41; xff; ESC; x64; x02; xc3] __init__))
    = (Return text, s').
Proof.
  destruct (C10_output_is_printable
              (snd (feed_bytes [x41; xff; ESC; x64; x02; xc3] __init__)))
    as (_ & frags & _ & _ & _ & H).
  - apply reachable_feed_bytes, reachable_init.
  - exact H.
Defined.

(** * Further properties *)

(** ** The shape of the decoder tree *)

Lemma is_lead_cases b : is_lead b = true <-> b = ESC \/ b = GS.
Proof.
  unfold is_lead. rewrite orb_true_iff. split.
  - intros [H | H]; apply Byte.byte_dec_bl in H; auto.
  - intros [-> | ->]; [left | right]; reflexivity.
Qed.

Lemma walk_one_shape a :
  shape_ok (is_lead a) false (walk (Dict decoder_tree) [a]) = true.
Proof. destruct a; vm_compute; reflexivity. Qed.

Lemma walk_two_shape_ESC b :
  shape_ok false (negb (is_lead b)) (walk (Dict decoder_tree) [ESC; b]) = true.
Proof. destruct b; vm_compute; reflexivity. Qed.

Lemma walk_two_shape_GS b :
  shape_ok (Byte.eqb b x28) (negb (is_lead b))
    (walk (Dict decoder_tree) [GS; b]) = true.
Proof. destruct b; vm_compute; reflexivity. Qed.

Lemma walk_three_shape c :
  shape_ok false (negb (is_lead c)) (walk (Dict decoder_tree) [GS; x28; c]) = true.
Proof. destruct c; vm_compute; reflexivity. Qed.

Lemma walk_one a n :
  walk (Dict decoder_tree) [a] = Return n ->
  (a = ESC \/ a = GS) /\ exists d, n = Dict d.
Proof.
  intros H. pose proof (walk_one_shape a) as S. rewrite H in S.
  destruct n as [func|d]; cbn in S; [discriminate|].
  split; [now apply is_lead_cases | eauto].
Qed.

Lemma walk_two a b n :
  walk (Dict decoder_tree) [a; b] = Return n ->
  (a = ESC \/ a = GS)
  /\ ((b <> ESC /\ b <> GS /\ exists func, n = Method func)
      \/ (a = GS /\ b = x28 /\ exists d, n = Dict d)).
Proof.
  intros H.
  assert (Ha : a = ESC \/ a = GS).
  { change [a; b] with ([a] ++ [b]) in H. rewrite walk_app in H.
    destruct (walk (Dict decoder_tree) [a]) as [n1|e] eqn:E; [|discriminate].
    exact (proj1 (walk_one a n1 E)). }
  split; [assumption|].
  destruct Ha as [-> | ->].
  - pose proof (walk_two_shape_ESC b) as S. rewrite H in S.
    destruct n as [func|d]; cbn in S; [|discriminate].
    apply negb_true_iff in S. left.
    repeat split; [intros ->; discriminate.. | eauto].
  - pose proof (walk_two_shape_GS b) as S. rewrite H in S.
    destruct n as [func|d]; cbn in S.
    + apply negb_true_iff in S. left.
      repeat split; [intros ->; discriminate.. | eauto].
    + apply Byte.byte_dec_bl in S. right. eauto.
Qed.

Lemma walk_three a b c n :
  walk (Dict decoder_tree) [a; b; c] = Return n ->
  a = GS /\ b = x28 /\ c <> ESC /\ c <> GS /\ exists func, n = Method func.
Proof.
  intros H. pose proof H as H'.
  change [a; b; c] with ([a; b] ++ [c]) in H'. rewrite walk_app in H'.
  destruct (walk (Dict decoder_tree) [a; b]) as [n2|e] eqn:E; [|discriminate].
  destruct (walk_two a b n2 E) as (_ & [(_ & _ & func & ->) | (-> & -> & _)]);
    [discriminate|].
  pose proof (walk_three_shape c) as S. rewrite H in S.
  destruct n as [func|d]; cbn in S; [|discriminate].
  apply negb_true_iff in S.
  repeat split; [intros ->; discriminate.. | eauto].
Qed.

Lemma walk_cons search key keys :
  walk search (key :: keys)
  = match subscript search key with
    | Return child => walk child keys
    | Raise e => Raise e
    end.
Proof. reflexivity. Qed.

Lemma walk_app_keys search keys keys' :
  walk search (keys ++ keys')
  = match walk search keys with
    | Return found => walk found keys'
    | Raise e => Raise e
    end.
Proof.
  revert search. induction keys as [|k keys IH]; intros search.
  - reflexivity.
  - cbn [app]. rewrite !walk_cons.
    destruct (subscript search k); [apply IH | reflexivity].
Qed.

Lemma walk_four a b c d rest :
  exists e, walk (Dict decoder_tree) (a :: b :: c :: d :: rest) = Raise e.
Proof.
  change (a :: b :: c :: d :: rest) with ([a; b; c] ++ d :: rest).
  rewrite walk_app_keys.
  destruct (walk (Dict decoder_tree) [a; b; c]) as [n|e] eqn:E; [|eauto].
  destruct (walk_three a b c n E) as (_ & _ & _ & _ & func & ->).
  exists TypeError. reflexivity.
Qed.

(** The paths of the tree: a walk that returns has gone two levels down at
    most when it returns a [dict], and two or three when it returns a
    method. *)
Lemma walk_depth keys found :
  walk (Dict decoder_tree) keys = Return found ->
  match found with
  | Dict _ => (List.length keys <= 2)%nat
  | Method _ => (2 <= List.length keys <= 3)%nat
  end.
Proof.
  intros H. destruct keys as [|a [|b [|c [|d rest]]]].
  - cbn in H. injection H as <-. cbn. lia.
  - destruct (walk_one a found H) as (_ & d & ->). cbn. lia.
  - destruct found; cbn; lia.
  - destruct (walk_three a b c found H) as (_ & _ & _ & _ & func & ->). cbn. lia.
  - destruct (walk_four a b c d rest) as [e E]. congruence.
Qed.

(** ** Consistency of the fields *)

Lemma co_argcount_max func : co_argcount func <= 5.
Proof. destruct func; vm_compute; discriminate. Qed.

Lemma _feed_byte_consistent b s :
  invariant s -> consistent s ->
  exists s',
    _feed_byte b s = (Return tt, s')
    /\ consistent s'
    /\ num_decoding_errors s <= num_decoding_errors s' <= num_decoding_errors s + 1.
Proof.
  intros [(frags & Hout & _) Hmode] [Hfixed Herr Hcons].
  destruct (decoder_mode s) eqn:Emode.
  - destruct (is_command_start b) eqn:Estart.
    + rewrite (_feed_byte_start b s frags Emode Estart Hout).
      eexists; split; [reflexivity|]. split; [|run_m; lia].
      split; run_m; auto. repeat split; cbn; lia.
    + rewrite (_feed_byte_data b s Emode Estart).
      eexists; split; [reflexivity|]. split; [|run_m; lia].
      split; run_m; auto. now rewrite Emode.
  - destruct Hmode as [d Hd]. destruct Hcons as (Hdata & Harg & Hnargs & Hlen).
    rewrite (_feed_byte_cmd b s Emode).
    unfold _process_command_buffer, _process_command_buffer_with,
      _find_printer_method; run_m.
    destruct (walk (Dict decoder_tree) (cmd_buf s ++ [b])) as [[func|d']|e] eqn:Ewalk.
    + pose proof (walk_depth _ _ Ewalk) as Hdepth. cbn beta iota in Hdepth.
      pose proof (co_argcount_pos func). pose proof (co_argcount_max func).
      run_m. destruct (co_argcount func - 1 =? 0) eqn:Enargs; run_m.
      * apply Z.eqb_eq in Enargs.
        assert (func = pm_initialize_printer) as -> by (apply co_argcount_one; lia).
        rewrite call_initialize_printer; run_m.
        eexists; split; [reflexivity|]. split; [|run_m; lia].
        split; run_m; auto.
      * apply Z.eqb_neq in Enargs.
        eexists; split; [reflexivity|]. split; [|run_m; lia].
        split; run_m; auto. repeat split; try assumption; lia.
    + pose proof (walk_depth _ _ Ewalk) as Hdepth. cbn beta iota in Hdepth.
      run_m. eexists; split; [reflexivity|]. split; [|run_m; lia].
      split; run_m; auto. rewrite Emode. rewrite length_app in *. cbn in *.
      repeat split; try assumption; lia.
    + rewrite walk_app, Hd in Ewalk. unfold subscript in Ewalk.
      destruct (d !! b) as [child|]; [discriminate|]. injection Ewalk as <-.
      run_m. eexists; split; [reflexivity|]. split; [|run_m; lia].
      split; run_m; auto. lia.
  - destruct Hmode as (func & Hwalk & Hnargs & Hlen).
    destruct Hcons as (Hdata & Hcmd & Hrange).
    unfold _feed_byte; run_m. rewrite Emode; run_m.
    destruct (Z.of_nat (List.length (cmd_arg_buf s ++ [b])) =? cmd_expected_nargs s)
      eqn:Efull; run_m.
    + unfold _find_printer_method; run_m. rewrite Hwalk; run_m.
      unfold printer_method_args_wrapper; run_m.
      destruct (call_effect func (cmd_arg_buf s ++ [b])
                  (set_cmd_arg_buf (cmd_arg_buf s ++ [b]) s))
        as [(o & ->) | (frags' & n & _ & ->)]; run_m.
      * destruct o; (eexists; split; [reflexivity|]); (split; [|run_m; lia]);
          split; run_m; auto.
      * eexists; split; [reflexivity|]. split; [|run_m; lia].
        split; run_m; auto.
    + eexists; split; [reflexivity|]. split; [|run_m; lia].
      split; run_m; auto. now rewrite Emode.
Qed.

Lemma _feed_byte_both b s :
  invariant s /\ consistent s ->
  exists s',
    _feed_byte b s = (Return tt, s')
    /\ (invariant s' /\ consistent s')
    /\ num_decoding_errors s <= num_decoding_errors s' <= num_decoding_errors s + 1.
Proof.
  intros [Hinv Hcons].
  destruct (_feed_byte_invariant b s Hinv) as (s1 & E1 & Hinv1).
  destruct (_feed_byte_consistent b s Hinv Hcons) as (s2 & E2 & Hcons2 & Hb).
  rewrite E1 in E2. injection E2 as <-. eauto.
Qed.

Lemma feed_bytes_both bs s :
  invariant s /\ consistent s ->
  exists s',
    feed_bytes bs s = (Return tt, s')
    /\ (invariant s' /\ consistent s')
    /\ num_decoding_errors s <= num_decoding_errors s'
       <= num_decoding_errors s + Z.of_nat (List.length bs).
Proof.
  unfold feed_bytes. revert s. induction bs as [|b bs IH]; intros s Hs.
  - exists s. split; [reflexivity|]. split; [assumption|]. cbn; lia.
  - destruct (_feed_byte_both b s Hs) as (s1 & E1 & H1 & Hb1).
    destruct (IH s1 H1) as (s2 & E2 & H2 & Hb2).
    exists s2. rewrite (for_each_cons_ok _ _ _ _ _ E1).
    split; [assumption|]. split; [assumption|].
    cbn [List.length]. lia.
Qed.

Lemma consistent_init k : 0 <= k -> consistent (set_num_decoding_errors k __init__).
Proof. intros Hk. split; cbn; auto. Qed.

Lemma reachable_both s : reachable s -> invariant s /\ consistent s.
Proof.
  induction 1 as [|s bs _ IH|s _ IH].
  - split; [exact (invariant_init 0) | apply (consistent_init 0); lia].
  - destruct (feed_bytes_both bs s IH) as (s' & E & H' & _). now rewrite E.
  - destruct IH as [Hinv Hcons].
    destruct (get_text_invariant s Hinv) as (frags & _ & E). rewrite E.
    split; [apply invariant_init | apply consistent_init, Hcons].
Qed.

(** ** Further properties of the decoder *)

Lemma in_bytes_PRINTABLES c :
  in_bytes c PRINTABLES
  = let n := int_of_byte c in
    (32 <=? n) && (n <=? 126) || (9 <=? n) && (n <=? 13).
Proof. destruct c; vm_compute; reflexivity. Qed.

Lemma printable_text_code c : printable c <-> text_code (int_of_byte c).
Proof.
  unfold printable, text_code. rewrite <- in_bytes_In, in_bytes_PRINTABLES.
  cbv zeta. rewrite orb_true_iff, !andb_true_iff, !Z.leb_le. reflexivity.
Qed.

Lemma _feed_byte_KeyError b s :
  decoder_mode s = FILL_CMD_BUF ->
  walk (Dict decoder_tree) (cmd_buf s ++ [b]) = Raise KeyError ->
  _feed_byte b s
  = (Return tt,
     set_decoder_mode FILL_DATA_BUF
       (set_cmd_buf []
          (set_cmd_arg_buf []
             (set_num_decoding_errors (num_decoding_errors s + 1)
                (set_cmd_buf (cmd_buf s ++ [b]) s))))).
Proof.
  intros Hmode Hwalk. rewrite (_feed_byte_cmd b s Hmode).
  unfold _process_command_buffer, _process_command_buffer_with,
    _find_printer_method; run_m.
  now rewrite Hwalk.
Qed.

(** X1: the printable set, written in the source as a literal with repeated
    characters, is exactly the ASCII range from space to tilde together with
    tab, line feed, vertical tab, form feed and carriage return: a data
    buffer passes the check of [_data_buf_to_output] if and only if all its
    bytes are of these. *)
Theorem X1_printables_are_ascii_text (data : bytes) :
  has_non_printables data = false
  <-> Forall (fun c => text_code (int_of_byte c)) data.
Proof.
  rewrite has_non_printables_false. split; intros H;
    (eapply List.Forall_impl; [|exact H]); intros c; apply printable_text_code.
Qed.

(** X2: no call of [feed_bytes] on a reachable instance raises, whatever the
    bytes. *)
Theorem X2_feed_bytes_never_raises (s : EscPosDecoder) (bs : bytes) :
  reachable s -> exists s', feed_bytes bs s = (Return tt, s').
Proof.
  intros Hs. destruct (feed_bytes_both bs s (reachable_both s Hs)) as (s' & E & _).
  eauto.
Qed.

Lemma X2_feed_bytes_never_raises_witness :
  exists s', feed_bytes [ESC; x61; xff; GS; x28; x00; x1b] __init__ = (Return tt, s').
Proof. apply X2_feed_bytes_never_raises. apply reachable_init. Defined.

(** X3: the error counter of a reachable instance is never negative, and a
    call of [feed_bytes] never lowers it and raises it by at most the number
    of bytes fed. *)
Theorem X3_error_counter_bounds (s : EscPosDecoder) (bs : bytes) :
  reachable s ->
  0 <= num_decoding_errors s
  /\ num_decoding_errors s <= num_decoding_errors (snd (feed_bytes bs s))
     <= num_decoding_errors s + Z.of_nat (List.length bs).
Proof.
  intros Hs. pose proof (reachable_both s Hs) as Hboth.
  destruct (feed_bytes_both bs s Hboth) as (s' & E & _ & Hb).
  rewrite E. split; [apply Hboth | exact Hb].
Qed.

Lemma X3_error_counter_bounds_witness :
  num_decoding_errors (snd (feed_bytes [ESC; ESC; GS; GS] __init__)) <= 4.
Proof.
  destruct (X3_error_counter_bounds __init__ [ESC; ESC; GS; GS] reachable_init)
    as [_ [_ H]].
  exact H.
Defined.

(** X4: on a reachable instance the buffers fit the mode.  While data is
    collected the command and argument buffers are empty and no argument is
    expected; while a command path is collected the data buffer is empty,
    the path holds one or two bytes and resolves to a nested [dict]; while
    arguments are collected the data buffer is empty, the path holds two or
    three bytes and resolves to a method, and fewer bytes are buffered than
    the one to four that are expected.  [printout_width] is always 48 and
    [num_parsed_bytes] always 0. *)
Theorem X4_buffers_fit_the_mode (s : EscPosDecoder) :
  reachable s ->
  printout_width s = 48 /\ num_parsed_bytes s = 0
  /\ match decoder_mode s with
     | FILL_DATA_BUF =>
         cmd_buf s = [] /\ cmd_arg_buf s = [] /\ cmd_expected_nargs s = 0
     | FILL_CMD_BUF =>
         data_buf s = [] /\ cmd_arg_buf s = [] /\ cmd_expected_nargs s = 0
         /\ (1 <= List.length (cmd_buf s) <= 2)%nat
         /\ exists d, walk (Dict decoder_tree) (cmd_buf s) = Return (Dict d)
     | FILL_CMD_ARG_BUF =>
         data_buf s = [] /\ (2 <= List.length (cmd_buf s) <= 3)%nat
         /\ (exists func,
               walk (Dict decoder_tree) (cmd_buf s) = Return (Method func)
               /\ cmd_expected_nargs s = co_argcount func - 1)
         /\ Z.of_nat (List.length (cmd_arg_buf s)) < cmd_expected_nargs s <= 4
     end.
Proof.
  intros Hs. destruct (reachable_both s Hs) as [[_ Hmode] [[Hw Hp] _ Hcons]].
  split; [assumption|]. split; [assumption|].
  destruct (decoder_mode s).
  - assumption.
  - destruct Hcons as (? & ? & ? & ?). auto.
  - destruct Hcons as (? & ? & ?). destruct Hmode as (func & ? & ? & ?).
    repeat split; try assumption; try lia. exists func. auto.
Qed.

Lemma X4_buffers_fit_the_mode_witness :
  data_buf (snd (feed_bytes [x41; GS; x28] __init__)) = []
  /\ (1 <= List.length (cmd_buf (snd (feed_bytes [x41; GS; x28] __init__))) <= 2)%nat.
Proof.
  pose proof (X4_buffers_fit_the_mode (snd (feed_bytes [x41; GS; x28] __init__))
                (reachable_feed_bytes _ _ reachable_init)) as (_ & _ & H).
  change (decoder_mode (snd (feed_bytes [x41; GS; x28] __init__)))
    with FILL_CMD_BUF in H.
  destruct H as (Hdata & _ & _ & Hlen & _). split; assumption.
Defined.

(** X5: a lead byte met while a command path is collected does not start a
    new command: no nested [dict] of the tree has a lead byte for key, so the
    byte is an unresolved path like any other.  The error counter grows by
    one, the byte is dropped, and the decoder collects data again. *)
Theorem X5_lead_byte_inside_command (s : EscPosDecoder) (b : byte) :
  reachable s ->
  decoder_mode s = FILL_CMD_BUF ->
  is_command_start b = true ->
  exists s',
    _feed_byte b s = (Return tt, s')
    /\ num_decoding_errors s' = num_decoding_errors s + 1
    /\ decoder_mode s' = FILL_DATA_BUF
    /\ cmd_buf s' = []
    /\ data_buf s' = [].
Proof.
  intros Hs Emode Hb.
  destruct (reachable_both s Hs) as [[_ Hmode] [_ _ Hcons]].
  rewrite Emode in Hmode, Hcons.
  destruct Hmode as [d Hd]. destruct Hcons as (Hdata & _ & _ & Hlen).
  apply is_command_start_cases in Hb.
  assert (Hwalk : walk (Dict decoder_tree) (cmd_buf s ++ [b]) = Raise KeyError).
  { destruct (walk (Dict decoder_tree) (cmd_buf s ++ [b])) as [n|e] eqn:E.
    - exfalso. destruct (cmd_buf s) as [|a [|c [|]]]; cbn in Hlen; try lia.
      + destruct (walk_two a b n E) as (_ & [(? & ? & _) | (_ & -> & _)]);
          destruct Hb; try contradiction; discriminate.
      + destruct (walk_three a c b n E) as (_ & _ & ? & ? & _).
        destruct Hb; contradiction.
    - rewrite walk_app, Hd in E. unfold subscript in E.
      destruct (d !! b); [discriminate | congruence]. }
  rewrite (_feed_byte_KeyError b s Emode Hwalk).
  eexists. split; [reflexivity|]. run_m. repeat split. assumption.
Qed.

Lemma X5_lead_byte_inside_command_witness :
  exists s',
    _feed_byte ESC (snd (feed_bytes [ESC] __init__)) = (Return tt, s')
    /\ num_decoding_errors s' = 1.
Proof.
  destruct (X5_lead_byte_inside_command (snd (feed_bytes [ESC] __init__)) ESC)
    as (s' & E & Herr & _).
  - apply reachable_feed_bytes, reachable_init.
  - reflexivity.
  - reflexivity.
  - exists s'. split; [exact E | exact Herr].
Defined.

(** ** Data runs *)

Lemma printable_not_command_start c : printable c -> is_command_start c = false.
Proof.
  intros H. apply in_bytes_In in H. rewrite in_bytes_PRINTABLES in H.
  revert H. destruct c; vm_compute; congruence.
Qed.

Lemma printable_data_run run : Forall printable run -> data_run run.
Proof.
  intros H. eapply List.Forall_impl; [|exact H].
  exact printable_not_command_start.
Qed.

Lemma set_data_buf_twice v w s : set_data_buf v (set_data_buf w s) = set_data_buf v s.
Proof. reflexivity. Qed.

Lemma feed_bytes_data_run run s :
  decoder_mode s = FILL_DATA_BUF ->
  data_run run ->
  feed_bytes run s = (Return tt, set_data_buf (data_buf s ++ run) s).
Proof.
  unfold feed_bytes. intros Hmode Hrun. revert s Hmode.
  induction Hrun as [|b run Hb _ IH]; intros s Hmode.
  - rewrite app_nil_r. destruct s; reflexivity.
  - rewrite (for_each_cons_ok _ _ _ _ _ (_feed_byte_data b s Hmode Hb)).
    rewrite IH by assumption. run_m. now rewrite <- app_assoc.
Qed.

Lemma join_flushed frags run :
  join (flushed frags run) = join frags ++ kept run.
Proof.
  unfold flushed, kept, join. destruct run as [|c run].
  - now rewrite app_nil_r.
  - destruct (has_non_printables (c :: run)).
    + now rewrite app_nil_r.
    + rewrite concat_app. cbn [List.concat]. now rewrite app_nil_r.
Qed.

Lemma kept_printable run : Forall printable (kept run).
Proof.
  unfold kept. destruct (has_non_printables run) eqn:E; [constructor|].
  now apply has_non_printables_false.
Qed.

(** The session of one data run on a new instance. *)
Lemma session_data_run run :
  data_run run ->
  session [run] __init__ = (Return (List.map int_of_byte (kept run), 0), __init__).
Proof.
  intros Hrun. unfold session, get_num_decoding_errors; run_m.
  rewrite feed_chunks_single, (feed_bytes_data_run run __init__ eq_refl Hrun).
  run_m.
  rewrite (get_text_eq _ [] (List.map int_of_byte (kept run))); [reflexivity.. |].
  unfold finalized, __init__; run_m. cbn [app]. rewrite join_flushed.
  apply decode_utf8_printable, kept_printable.
Qed.

(** X6: a sequence of printable bytes fed to a new instance comes back as
    the text, code for code, with no error counted. *)
Theorem X6_literal_passthrough (run : bytes) :
  Forall printable run ->
  session [run] __init__ = (Return (List.map int_of_byte run, 0), __init__).
Proof.
  intros H. rewrite (session_data_run run (printable_data_run run H)).
  unfold kept. apply has_non_printables_false in H. now rewrite H.
Qed.

Lemma X6_literal_passthrough_witness :
  session [list_byte_of_string "Hello"] __init__
  = (Return (str_of "Hello", 0), __init__).
Proof.
  apply (X6_literal_passthrough (list_byte_of_string "Hello")).
  apply has_non_printables_false. vm_compute. reflexivity.
Defined.

(** X7: a run of data bytes one of which is not printable gives the empty
    text on a new instance: the whole run is dropped, its printable bytes
    included, and no error is counted. *)
Theorem X7_non_printable_run_is_dropped (run : bytes) :
  data_run run ->
  Exists (fun c => ~ printable c) run ->
  session [run] __init__ = (Return ([], 0), __init__).
Proof.
  intros Hrun Hnp. rewrite (session_data_run run Hrun).
  unfold kept. apply has_non_printables_true in Hnp. now rewrite Hnp.
Qed.

Lemma X7_non_printable_run_is_dropped_witness :
  session [[x41; x01; x42]] __init__ = (Return ([], 0), __init__).
Proof.
  apply (X7_non_printable_run_is_dropped [x41; x01; x42]).
  - unfold data_run.
    repeat (apply List.Forall_cons; [vm_compute; reflexivity|]).
    apply List.Forall_nil.
  - apply has_non_printables_true. vm_compute. reflexivity.
Defined.

(** ** Whole commands *)

Lemma _process_command_buffer_dict argcount s d :
  walk (Dict decoder_tree) (cmd_buf s) = Return (Dict d) ->
  _process_command_buffer_with argcount s = (Return tt, s).
Proof.
  intros Hwalk.
  unfold _process_command_buffer_with, _find_printer_method; run_m.
  now rewrite Hwalk.
Qed.

Lemma walk_prefix_dict search keys key keys' found :
  walk search (keys ++ key :: keys') = Return found ->
  exists d, walk search keys = Return (Dict d).
Proof.
  rewrite walk_app_keys.
  destruct (walk search keys) as [[func|d]|e]; [discriminate | eauto | discriminate].
Qed.

(** The bytes of a path after the lead byte, up to the one that resolves it. *)
Lemma feed_bytes_path func rest :
  forall s,
    decoder_mode s = FILL_CMD_BUF ->
    rest <> [] ->
    walk (Dict decoder_tree) (cmd_buf s ++ rest) = Return (Method func) ->
    feed_bytes rest s
    = _process_command_buffer (set_cmd_buf (cmd_buf s ++ rest) s).
Proof.
  unfold feed_bytes. induction rest as [|b rest IH]; intros s Hmode Hne Hwalk;
    [contradiction|].
  destruct rest as [|b' rest].
  - cbn [for_each]. unfold bind. rewrite (_feed_byte_cmd b s Hmode).
    destruct (_process_command_buffer _) as [[[]|e] s1]; reflexivity.
  - change (b :: b' :: rest) with ([b] ++ b' :: rest) in Hwalk.
    rewrite app_assoc in Hwalk.
    destruct (walk_prefix_dict _ _ _ _ _ Hwalk) as [d Hd].
    erewrite for_each_cons_ok.
    2:{ rewrite (_feed_byte_cmd b s Hmode).
        apply (_process_command_buffer_dict co_argcount _ d). exact Hd. }
    rewrite IH; [|assumption|discriminate|exact Hwalk].
    cbn [cmd_buf set_cmd_buf]. rewrite <- app_assoc. reflexivity.
Qed.

Lemma _feed_byte_arg b s :
  decoder_mode s = FILL_CMD_ARG_BUF ->
  Z.of_nat (List.length (cmd_arg_buf s ++ [b])) <> cmd_expected_nargs s ->
  _feed_byte b s = (Return tt, set_cmd_arg_buf (cmd_arg_buf s ++ [b]) s).
Proof.
  intros Hmode Hlen. unfold _feed_byte; run_m. rewrite Hmode; run_m.
  apply Z.eqb_neq in Hlen. now rewrite Hlen.
Qed.

(** The argument bytes of a resolved method, whatever their values. *)
Lemma feed_bytes_args func args :
  forall s,
    decoder_mode s = FILL_CMD_ARG_BUF ->
    walk (Dict decoder_tree) (cmd_buf s) = Return (Method func) ->
    args <> [] ->
    Z.of_nat (List.length (cmd_arg_buf s ++ args)) = cmd_expected_nargs s ->
    feed_bytes args s
    = (do _ <- try_except_pass (call func (cmd_arg_buf s ++ args));
       do _ <- modify (set_cmd_buf []);
       do _ <- modify (set_cmd_arg_buf []);
       do _ <- modify (set_cmd_expected_nargs 0);
       modify (set_decoder_mode FILL_DATA_BUF))
        (set_cmd_arg_buf (cmd_arg_buf s ++ args) s).
Proof.
  unfold feed_bytes. induction args as [|b args IH]; intros s Hmode Hwalk Hne Hlen;
    [contradiction|].
  destruct args as [|b' args].
  - cbn [for_each]. unfold bind at 1.
    rewrite (_feed_byte_last_arg b s func Hmode Hlen Hwalk).
    match goal with |- (let (_, _) := ?c in _) = _ =>
      destruct c as [[[]|e] s1]; reflexivity end.
  - assert (Hshort : Z.of_nat (List.length (cmd_arg_buf s ++ [b]))
                     <> cmd_expected_nargs s).
    { rewrite !length_app in *. cbn [List.length] in *. lia. }
    rewrite (for_each_cons_ok _ _ _ _ _ (_feed_byte_arg b s Hmode Hshort)).
    rewrite IH; try assumption; try discriminate.
    + cbn [cmd_arg_buf set_cmd_arg_buf]. rewrite <- app_assoc. reflexivity.
    + cbn [cmd_arg_buf set_cmd_arg_buf cmd_expected_nargs].
      rewrite <- app_assoc. exact Hlen.
Qed.

Lemma wrapper_done func args s frags :
  out_buf s = OutList frags ->
  data_buf s = [] ->
  Z.of_nat (List.length args) = co_argcount func - 1 ->
  (do _ <- try_except_pass (call func args);
   do _ <- modify (set_cmd_buf []);
   do _ <- modify (set_cmd_arg_buf []);
   do _ <- modify (set_cmd_expected_nargs 0);
   modify (set_decoder_mode FILL_DATA_BUF)) s
  = (Return tt, command_done (frags ++ synthesized func args) s).
Proof.
  destruct s as [errs mode width cmd arg data nargs parsed out]; cbn.
  intros -> -> Hlen. unfold command_done; run_m.
  destruct func; destruct args as [|a0 [|a1 [|a2 [|a3 [|a4 rest]]]]];
    cbv [co_argcount] in Hlen; cbn [List.length] in Hlen; try lia;
    unfold call, synthesized; run_m; rewrite ?app_nil_r; try reflexivity.
  - unfold _feed_forward_units, out_buf_append, bytes_mul; run_m.
    now rewrite int_of_byte_to_nat.
  - unfold _select_justification.
    repeat match goal with |- context [if ?c then _ else _] => destruct c end;
      reflexivity.
  - unfold _feed_forward_lines, out_buf_append, bytes_mul; run_m.
    now rewrite int_of_byte_to_nat.
Qed.

Lemma feed_bytes_command path func args s frags :
  walk (Dict decoder_tree) path = Return (Method func) ->
  Z.of_nat (List.length args) = co_argcount func - 1 ->
  decoder_mode s = FILL_DATA_BUF ->
  out_buf s = OutList frags ->
  feed_bytes (path ++ args) s
  = (Return tt,
     command_done (flushed frags (data_buf s) ++ synthesized func args) s).
Proof.
  intros Hwalk Hlen Hmode Hout.
  pose proof (walk_depth path _ Hwalk) as Hdepth. cbn beta iota in Hdepth.
  destruct path as [|a rest]; [cbn in Hdepth; lia|].
  assert (Hrest : rest <> []) by (intros ->; cbn in Hdepth; lia).
  assert (Ha : is_command_start a = true).
  { change (a :: rest) with ([a] ++ rest) in Hwalk.
    rewrite walk_app_keys in Hwalk.
    destruct (walk (Dict decoder_tree) [a]) as [n1|e] eqn:E; [|discriminate].
    destruct (walk_one a n1 E) as [[-> | ->] _]; reflexivity. }
  unfold feed_bytes. cbn [app].
  rewrite (for_each_cons_ok _ _ _ _ _ (_feed_byte_start a s frags Hmode Ha Hout)).
  rewrite for_each_app. unfold bind at 1.
  match goal with |- context [for_each rest _feed_byte ?s1] =>
    change (for_each rest _feed_byte s1) with (feed_bytes rest s1);
    rewrite (feed_bytes_path func rest s1 eq_refl Hrest Hwalk)
  end.
  run_m. cbn [app].
  destruct (Z.eq_dec (co_argcount func - 1) 0) as [Hzero | Hnz].
  - assert (func = pm_initialize_printer) as -> by (apply co_argcount_one; lia).
    destruct args; [|cbn [List.length] in Hlen; lia].
    unfold _process_command_buffer, _process_command_buffer_with,
      _find_printer_method; run_m.
    rewrite Hwalk; run_m.
    replace (co_argcount pm_initialize_printer - 1 =? 0) with true by reflexivity.
    run_m. rewrite call_initialize_printer; run_m.
    unfold command_done, synthesized; run_m. now rewrite app_nil_r.
  - unfold _process_command_buffer.
    erewrite _process_command_buffer_args with (func := func);
      [| exact Hwalk | exact Hnz].
    assert (Hargs : args <> []).
    { intros ->. cbn [List.length] in Hlen. lia. }
    match goal with |- context [for_each args _feed_byte ?s2] =>
      change (for_each args _feed_byte s2) with (feed_bytes args s2);
      rewrite (feed_bytes_args func args s2 eq_refl Hwalk Hargs Hlen)
    end.
    erewrite wrapper_done; [reflexivity | reflexivity | reflexivity | exact Hlen].
Qed.

(** X8: every complete command is consumed.  From an instance that collects
    data, with a list for [out_buf], any path of the tree followed by as
    many bytes as its method has parameters (whatever their values, lead
    bytes included) is fed without an exception and without an error
    counted; the data buffered before it is flushed, the two feed-forward
    methods append their line feeds, and the decoder collects data again with
    every buffer empty. *)
Theorem X8_complete_command_is_consumed
  (path : bytes) (func : printer_method) (args : bytes)
  (s : EscPosDecoder) (frags : list bytes) :
  walk (Dict decoder_tree) path = Return (Method func) ->
  Z.of_nat (List.length args) = co_argcount func - 1 ->
  decoder_mode s = FILL_DATA_BUF ->
  out_buf s = OutList frags ->
  feed_bytes (path ++ args) s
  = (Return tt,
     command_done (flushed frags (data_buf s) ++ synthesized func args) s).
Proof. apply feed_bytes_command. Qed.

Lemma X8_complete_command_is_consumed_witness :
  feed_bytes ([GS; x28; x4c] ++ [ESC; ESC; GS; x00]) __init__
  = (Return tt, __init__).
Proof.
  apply (X8_complete_command_is_consumed
           [GS; x28; x4c] pm_process_graphics_data [ESC; ESC; GS; x00]
           __init__ []);
    vm_compute; reflexivity.
Defined.

Lemma join_app (frags frags' : list bytes) :
  join (frags ++ frags') = join frags ++ join frags'.
Proof. unfold join. apply concat_app. Qed.

Lemma synthesized_printable func args :
  Forall (Forall printable) (synthesized func args).
Proof.
  assert (H : forall n, Forall (Forall printable) [List.repeat LF n]).
  { intros n. constructor; [|constructor]. apply List.Forall_forall.
    intros c Hc. apply repeat_spec in Hc. subst c. exact printable_LF. }
  unfold synthesized.
  destruct func; destruct args as [|a [|b rest]];
    first [apply H | apply List.Forall_nil].
Qed.

(** X9: data runs on either side of a command are checked apart.  A new
    instance fed a data run, a complete command and a second data run gives
    as text what the check lets through of the first run, then the line
    feeds of the command, then what it lets through of the second run; a
    byte that is not printable costs only its own run.  No error is
    counted. *)
Theorem X9_runs_are_checked_apart
  (run1 run2 path : bytes) (func : printer_method) (args : bytes) :
  data_run run1 ->
  data_run run2 ->
  walk (Dict decoder_tree) path = Return (Method func) ->
  Z.of_nat (List.length args) = co_argcount func - 1 ->
  session [run1; path ++ args; run2] __init__
  = (Return (List.map int_of_byte
               (kept run1 ++ join (synthesized func args) ++ kept run2), 0),
     __init__).
Proof.
  intros Hrun1 Hrun2 Hwalk Hlen.
  unfold session, get_num_decoding_errors. unfold bind at 1.
  unfold feed_chunks.
  erewrite for_each_cons_ok
    by (apply feed_bytes_data_run; [reflexivity | exact Hrun1]).
  erewrite for_each_cons_ok
    by (eapply feed_bytes_command;
        [exact Hwalk | exact Hlen | reflexivity | reflexivity]).
  erewrite for_each_cons_ok
    by (apply feed_bytes_data_run; [reflexivity | exact Hrun2]).
  cbn [for_each]. run_m.
  erewrite get_text_eq; [reflexivity | reflexivity |].
  unfold finalized, command_done, __init__; run_m. cbn [app].
  rewrite join_flushed, join_app, join_flushed.
  change (join []) with (@nil byte). cbn [app]. rewrite <- app_assoc.
  apply decode_utf8_printable.
  repeat (apply Forall_app; split);
    [apply kept_printable
    | apply join_printable, synthesized_printable
    | apply kept_printable].
Qed.

Lemma X9_runs_are_checked_apart_witness :
  session [[x41; x01]; [ESC; x64] ++ [x02]; [x42]] __init__
  = (Return ([10; 10; 66], 0), __init__).
Proof.
  apply (X9_runs_are_checked_apart [x41; x01] [x42] [ESC; x64]
           pm_feed_forward_lines [x02]).
  - unfold data_run.
    repeat (apply List.Forall_cons; [vm_compute; reflexivity|]).
    apply List.Forall_nil.
  - unfold data_run.
    repeat (apply List.Forall_cons; [vm_compute; reflexivity|]).
    apply List.Forall_nil.
  - vm_compute. reflexivity.
  - vm_compute. reflexivity.
Defined.

(** ** Finalizing, calling, parsing *)

(** X10: finalizing twice.  On a reachable instance [get_text] returns a
    text; called again at once it returns the empty text, and neither call
    changes the error counter. *)
Theorem X10_get_text_twice (s : EscPosDecoder) :
  reachable s ->
  exists text s',
    get_text s = (Return text, s')
    /\ get_text s' = (Return [], s')
    /\ num_decoding_errors s' = num_decoding_errors s.
Proof.
  intros Hs. destruct (reachable_both s Hs) as [Hinv _].
  destruct (get_text_invariant s Hinv) as (frags & _ & E).
  exists (List.map int_of_byte (join (finalized s frags))),
    (set_num_decoding_errors (num_decoding_errors s) __init__).
  split; [exact E|]. split; [|reflexivity].
  apply (get_text_eq (set_num_decoding_errors (num_decoding_errors s) __init__)
           [] []); reflexivity.
Qed.

Lemma X10_get_text_twice_witness :
  exists text s',
    get_text (snd (feed_bytes [x41; ESC; x42] __init__)) = (Return text, s')
    /\ get_text s' = (Return [], s').
Proof.
  destruct (X10_get_text_twice (snd (feed_bytes [x41; ESC; x42] __init__)))
    as (text & s' & E1 & E2 & _).
  - apply reachable_feed_bytes, reachable_init.
  - exists text, s'. split; assumption.
Defined.

(** X11: the text that [get_text] returns on a reachable instance holds
    only codes of printable ASCII characters and of the white-space controls
    from tab to carriage return; no lead byte and no other control or
    non-ASCII code can appear in it. *)
Theorem X11_text_is_printable_ascii (s s' : EscPosDecoder) (text : str) :
  reachable s ->
  get_text s = (Return text, s') ->
  Forall text_code text.
Proof.
  intros Hs E. destruct (reachable_both s Hs) as [Hinv _].
  destruct (get_text_invariant s Hinv) as (frags & Hout & E').
  rewrite E' in E. injection E as <- _.
  destruct Hinv as [(frags' & Hout' & Hfrags) _].
  rewrite Hout in Hout'. injection Hout' as <-.
  apply List.Forall_map.
  eapply List.Forall_impl; [intros c; apply printable_text_code|].
  apply join_printable, finalized_printable, Hfrags.
Qed.

Lemma X11_text_is_printable_ascii_witness :
  Forall text_code
    (List.map int_of_byte [x41; x0a]).
Proof.
  apply (X11_text_is_printable_ascii
           (snd (feed_bytes [x41; ESC; x64; x01; xff] __init__)) __init__).
  - apply reachable_feed_bytes, reachable_init.
  - vm_compute. reflexivity.
Defined.

(** X12: calling a printer method raises [TypeError] exactly when the number
    of argument bytes differs from the method's parameter count less one, so
    the arity that [_process_command_buffer] reads from the method is the
    one its call accepts. *)
Theorem X12_call_arity (func : printer_method) (args : bytes) (s : EscPosDecoder) :
  fst (call func args s) = Raise TypeError
  <-> Z.of_nat (List.length args) <> co_argcount func - 1.
Proof.
  destruct func; destruct args as [|a0 [|a1 [|a2 [|a3 [|a4 rest]]]]];
    cbv [co_argcount]; cbn [List.length]; unfold call;
    try (split; [intros _; lia | reflexivity]);
    (split; [|intros H; exfalso; lia]);
    try discriminate.
  - unfold _feed_forward_units, out_buf_append.
    destruct (out_buf s); discriminate.
  - unfold _select_justification.
    repeat match goal with |- context [if ?c then _ else _] => destruct c end;
      discriminate.
  - unfold _feed_forward_lines, out_buf_append.
    destruct (out_buf s); discriminate.
Qed.

(** X13: with the right number of argument bytes and a list for [out_buf],
    the only printer method whose call raises is [_select_justification],
    with [ValueError], on a byte that is none of 0, 1, 2, 48, 49, 50. *)
Theorem X13_only_justification_fails
  (func : printer_method) (args : bytes) (s : EscPosDecoder)
  (frags : list bytes) (e : exn) :
  out_buf s = OutList frags ->
  Z.of_nat (List.length args) = co_argcount func - 1 ->
  (fst (call func args s) = Raise e
   <-> e = ValueError /\ func = pm_select_justification
       /\ exists n, args = [n] /\ ~ In (int_of_byte n) justification_codes).
Proof.
  intros Hout Hlen.
  destruct func; destruct args as [|a0 [|a1 [|a2 [|a3 [|a4 rest]]]]];
    cbv [co_argcount] in Hlen; cbn [List.length] in Hlen; try lia;
    unfold call;
    try (split; [discriminate | intros (_ & Hf & _); discriminate]).
  - unfold _feed_forward_units, out_buf_append. rewrite Hout.
    split; [discriminate | intros (_ & Hf & _); discriminate].
  - unfold _select_justification, justification_codes.
    repeat match goal with
           | |- context [int_of_byte a0 =? ?k] =>
               destruct (Z.eqb_spec (int_of_byte a0) k)
           end;
      cbn [orb fst ret raise In];
      try (split;
           [ discriminate
           | intros (_ & _ & arg & Heq & Harg); injection Heq as <-;
             exfalso; apply Harg; lia ]).
    split.
    + intros [= <-]. split; [reflexivity|]. split; [reflexivity|].
      exists a0. split; [reflexivity | lia].
    + intros (-> & _). reflexivity.
  - unfold _feed_forward_lines, out_buf_append. rewrite Hout.
    split; [discriminate | intros (_ & Hf & _); discriminate].
Qed.

Lemma X13_only_justification_fails_witness :
  fst (call pm_select_justification [x09] __init__) = Raise ValueError.
Proof.
  apply (X13_only_justification_fails pm_select_justification [x09] __init__ []);
    [reflexivity | reflexivity |].
  split; [reflexivity|]. split; [reflexivity|].
  exists x09. split; [reflexivity|].
  vm_compute. intuition discriminate.
Defined.

Lemma read_loop_for_each contents s :
  read_loop contents s = for_each contents _feed_byte s.
Proof.
  revert s. induction contents as [|b contents IH]; intros s; [reflexivity|].
  cbn [read_loop for_each]. unfold bind.
  destruct (_feed_byte b s) as [[[]|e] s1]; [apply IH | reflexivity].
Qed.

(** X14: parsing a file is feeding its bytes.  With a [str] for file name,
    [parse_file] does to the instance what [feed_bytes] does with the
    contents of the file in one call, and what any sequence of [feed_bytes]
    calls does with the contents cut into chunks; with anything else for
    file name it raises [TypeError] and leaves the instance as it was. *)
Theorem X14_parse_file (contents : bytes) (s : EscPosDecoder) :
  (forall name, parse_file (PyStr name) contents s = feed_bytes contents s)
  /\ (forall name chunks,
        List.concat chunks = contents ->
        parse_file (PyStr name) contents s = feed_chunks chunks s)
  /\ (forall filename,
        (forall name, filename <> PyStr name) ->
        parse_file filename contents s = (Raise TypeError, s)).
Proof.
  split; [|split].
  - intros name. apply read_loop_for_each.
  - intros name chunks <-. rewrite feed_chunks_concat. apply read_loop_for_each.
  - intros [name| | |] H; [now destruct (H name) | reflexivity..].
Qed.

Lemma X14_parse_file_witness :
  parse_file (PyStr "demo.bin") [x41; ESC; x40] __init__
  = feed_chunks [[x41]; [ESC; x40]] __init__
  /\ parse_file PyNone [x41; ESC; x40] __init__ = (Raise TypeError, __init__).
Proof.
  destruct (X14_parse_file [x41; ESC; x40] __init__) as (_ & Hchunks & Htype).
  split.
  - apply Hchunks. reflexivity.
  - apply Htype. discriminate.
Defined.

(** ** The output only grows *)

Lemma flushed_extends frags buf : exists extra, flushed frags buf = frags ++ extra.
Proof.
  unfold flushed. destruct buf as [|c buf].
  - exists []. now rewrite app_nil_r.
  - destruct (has_non_printables (c :: buf)); [exists [] | eauto].
    now rewrite app_nil_r.
Qed.

Lemma _feed_byte_appends b s frags :
  invariant s ->
  out_buf s = OutList frags ->
  exists s' extra,
    _feed_byte b s = (Return tt, s') /\ out_buf s' = OutList (frags ++ extra).
Proof.
  intros [_ Hmode] Hout.
  assert (Hsame : OutList frags = OutList (frags ++ []))
    by now rewrite app_nil_r.
  destruct (decoder_mode s) eqn:Emode.
  - destruct (is_command_start b) eqn:Estart.
    + rewrite (_feed_byte_start b s frags Emode Estart Hout).
      destruct (flushed_extends frags (data_buf s)) as [extra ->].
      eexists _, extra. split; reflexivity.
    + rewrite (_feed_byte_data b s Emode Estart).
      eexists _, []. split; [reflexivity|]. run_m. congruence.
  - destruct Hmode as [d Hd]. rewrite (_feed_byte_cmd b s Emode).
    unfold _process_command_buffer, _process_command_buffer_with,
      _find_printer_method; run_m.
    rewrite walk_app, Hd. unfold subscript.
    destruct (d !! b) as [[func|d']|]; run_m.
    + destruct (co_argcount func - 1 =? 0) eqn:Enargs; run_m.
      * apply Z.eqb_eq in Enargs.
        assert (func = pm_initialize_printer) as -> by (apply co_argcount_one; lia).
        rewrite call_initialize_printer; run_m.
        eexists _, []. split; [reflexivity|]. run_m. congruence.
      * eexists _, []. split; [reflexivity|]. run_m. congruence.
    + eexists _, []. split; [reflexivity|]. run_m. congruence.
    + eexists _, []. split; [reflexivity|]. run_m. congruence.
  - destruct Hmode as (func & Hwalk & _ & _).
    unfold _feed_byte; run_m. rewrite Emode; run_m.
    destruct (Z.of_nat (List.length (cmd_arg_buf s ++ [b])) =? cmd_expected_nargs s);
      run_m.
    + unfold _find_printer_method; run_m. rewrite Hwalk; run_m.
      unfold printer_method_args_wrapper; run_m.
      destruct (call_effect func (cmd_arg_buf s ++ [b])
                  (set_cmd_arg_buf (cmd_arg_buf s ++ [b]) s))
        as [(o & ->) | (frags' & n & Hout' & ->)]; run_m.
      * destruct o; (eexists _, []; split; [reflexivity|]); run_m; congruence.
      * cbn in Hout'. rewrite Hout in Hout'. injection Hout' as <-.
        eexists _, _. split; reflexivity.
    + eexists _, []. split; [reflexivity|]. run_m. congruence.
Qed.

Lemma feed_bytes_appends bs :
  forall s frags,
    invariant s ->
    out_buf s = OutList frags ->
    exists s' extra,
      feed_bytes bs s = (Return tt, s') /\ out_buf s' = OutList (frags ++ extra).
Proof.
  unfold feed_bytes. induction bs as [|b bs IH]; intros s frags Hinv Hout.
  - exists s, []. split; [reflexivity|]. now rewrite app_nil_r.
  - destruct (_feed_byte_appends b s frags Hinv Hout) as (s1 & extra1 & E1 & Hout1).
    destruct (_feed_byte_invariant b s Hinv) as (s1' & E1' & Hinv1).
    rewrite E1 in E1'. injection E1' as <-.
    destruct (IH s1 _ Hinv1 Hout1) as (s2 & extra2 & E2 & Hout2).
    exists s2, (extra1 ++ extra2).
    rewrite (for_each_cons_ok _ _ _ _ _ E1). split; [exact E2|].
    now rewrite app_assoc.
Qed.

(** X15: finalizing while data is collected.  On a reachable instance in
    mode [FILL_DATA_BUF], [get_text] returns the output list followed by
    what the check lets through of the pending data buffer: all of it when
    every byte is printable, none of it otherwise. *)
Theorem X15_get_text_flushes_pending_data (s : EscPosDecoder) (frags : list bytes) :
  reachable s ->
  decoder_mode s = FILL_DATA_BUF ->
  out_buf s = OutList frags ->
  get_text s
  = (Return (List.map int_of_byte (join frags ++ kept (data_buf s))),
     set_num_decoding_errors (num_decoding_errors s) __init__).
Proof.
  intros Hs Hmode Hout. destruct (reachable_both s Hs) as [Hinv _].
  destruct (get_text_invariant s Hinv) as (frags' & Hout' & E).
  rewrite Hout in Hout'. injection Hout' as <-.
  rewrite E. unfold finalized. rewrite Hmode, join_flushed. reflexivity.
Qed.

Lemma X15_get_text_flushes_pending_data_witness :
  get_text (snd (feed_bytes [ESC; x64; x01; x41; x42] __init__))
  = (Return [10; 65; 66], __init__).
Proof.
  apply (X15_get_text_flushes_pending_data
           (snd (feed_bytes [ESC; x64; x01; x41; x42] __init__)) [[LF]]).
  - apply reachable_feed_bytes, reachable_init.
  - vm_compute. reflexivity.
  - vm_compute. reflexivity.
Defined.

(** X16: output is never taken back.  Whatever bytes are fed to a reachable
    instance, the fragments already in its output list stay, in order, at
    the front of the list: feeding only appends. *)
Theorem X16_output_only_grows (s : EscPosDecoder) (bs : bytes) (frags : list bytes) :
  reachable s ->
  out_buf s = OutList frags ->
  exists extra, out_buf (snd (feed_bytes bs s)) = OutList (frags ++ extra).
Proof.
  intros Hs Hout. destruct (reachable_both s Hs) as [Hinv _].
  destruct (feed_bytes_appends bs s frags Hinv Hout) as (s' & extra & E & Hout').
  exists extra. now rewrite E.
Qed.

Lemma X16_output_only_grows_witness :
  exists extra,
    out_buf (snd (feed_bytes [x42; xff; GS; x56; x00]
                    (snd (feed_bytes [x41; ESC; x40] __init__))))
    = OutList ([[x41]] ++ extra).
Proof.
  apply (X16_output_only_grows (snd (feed_bytes [x41; ESC; x40] __init__))).
  - apply reachable_feed_bytes, reachable_init.
  - vm_compute. reflexivity.
Defined.
